(** * HttpCacheService: a shallow embedding of
      [src/angular/services/http-cache/http-cache.service.ts]

    The service keeps an array of cache items, looks items up by method, URL
    and loosely compared query parameters, appends an item for every
    [HttpResponse] event and removes items by object identity.

    Layout of the development:
    - [Js]: the JavaScript values the service handles;
    - [Angular]: the part of [@angular/common/http] the service reads;
    - [COMPARERS]: the loose comparer of [library/comparers];
    - [Runtime]: the state the methods run in and its monad;
    - [Service]: the methods of the class, in source order;
    - the vocabulary of the properties, and a concrete scenario;
    - the properties of the comparer, of the store and of the helpers. *)

From Stdlib Require Import List String Bool Arith ZArith Lia.
Import ListNotations.

Set Implicit Arguments.
Set Warnings "-register-all".

Local Open Scope string_scope.
Local Open Scope list_scope.

(* ===================================================================== *)
(** ** JavaScript values *)
(* ===================================================================== *)

Module Js.

(** Modelled from the spec: the type [LooseValue] of [library/comparers],
    which is not part of the sources at hand.  A loose value is
    [undefined], [null], a scalar, an array of [[name, value]] pairs (what
    the service builds from an [HttpParams]) or a plain object with string
    keys (a [RawParams] mapping). *)
Inductive LooseValue : Type :=
| LUndefined
| LNull
| LString (s : string)
| LNumber (n : Z)
| LBoolean (b : bool)
| LPairs (pairs : list (string * LooseValue))
| LObject (fields : list (string * LooseValue)).

(** First binding of [name] in an association list, as property access on
    an object (or the first pair of that name in a pair array). *)
Fixpoint assoc (A : Type) (name : string) (l : list (string * A)) : option A :=
  match l with
  | [] => None
  | (k, v) :: rest => if String.eqb k name then Some v else assoc name rest
  end.

End Js.

Import Js.

(* ===================================================================== *)
(** ** The Angular types the service reads *)
(* ===================================================================== *)

Module Angular.

(** [HttpEventType], in the order of the enumeration. *)
Inductive HttpEventType : Type :=
| Sent | UploadProgress | ResponseHeader | DownloadProgress | Response | User.

Definition HttpEventType_eqb (a b : HttpEventType) : bool :=
  match a, b with
  | Sent, Sent | UploadProgress, UploadProgress
  | ResponseHeader, ResponseHeader | DownloadProgress, DownloadProgress
  | Response, Response | User, User => true
  | _, _ => false
  end.

(** [HttpParams]: an immutable multi-map from a parameter name to the list
    of its values, in insertion order of the names ([pmap] is its private
    field [map]). *)
Record HttpParams : Type := mkHttpParams { pmap : list (string * list string) }.

(** [params.keys()] *)
Definition keys (params : HttpParams) : list string :=
  List.map fst (pmap params).

(** [params.get(key)]: the first value of [key], [null] when the name is
    absent ([res[0]] of an empty value list is [undefined]). *)
Definition get (params : HttpParams) (key : string) : LooseValue :=
  match assoc key (pmap params) with
  | None => LNull
  | Some [] => LUndefined
  | Some (v :: _) => LString v
  end.

(** [params.getAll(key)], for comparison with [get]. *)
Definition getAll (params : HttpParams) (key : string) : option (list string) :=
  assoc key (pmap params).

(** Modelled from the spec: the type [RawParams] of
    [types/IHttpCacheItem], which is not part of the sources at hand: an
    already-keyed mapping from a name to a single value. *)
Definition RawParams : Type := list (string * LooseValue).

(** The argument type [HttpParams | RawParams | undefined]. *)
Inductive Params : Type :=
| ParamsUndefined
| ParamsHttp (params : HttpParams)
| ParamsRaw (params : RawParams).

Section Generic.
(** The body type [T] of requests and responses. *)
Variable T : Type.

(** The fields of a request the service reads, and its body.  An Angular
    [HttpRequest] always carries an [HttpParams]; the request of a
    preloaded cache item may carry a raw mapping or nothing, which is why
    [req_params] has the type of the second argument of
    [paramsAreBasicallyEqual]. *)
Record HttpRequest : Type := mkHttpRequest {
  req_method : string;
  req_url : string;
  req_params : Params;
  req_body : option T
}.

(** [HttpResponse<T>]: a complete response.  [status] is any HTTP status
    code; [ok] tells the successful ones apart. *)
Record HttpResponse : Type := mkHttpResponse {
  status : Z;
  statusText : string;
  body : option T
}.

(** [response.ok]: the status is in the 2xx range. *)
Definition ok (response : HttpResponse) : bool :=
  ((200 <=? status response) && (status response <? 300))%Z.

(** [HttpEvent<T>], the union of the events of a request's stream. *)
Inductive HttpEvent : Type :=
| HttpSentEvent
| HttpUploadProgressEvent (loaded : Z) (total : option Z)
| HttpHeaderResponse (header_status : Z)
| HttpDownloadProgressEvent (loaded : Z) (total : option Z)
| HttpResponseEvent (response : HttpResponse)
| HttpUserEvent.

(** [event.type] *)
Definition type (event : HttpEvent) : HttpEventType :=
  match event with
  | HttpSentEvent => Sent
  | HttpUploadProgressEvent _ _ => UploadProgress
  | HttpHeaderResponse _ => ResponseHeader
  | HttpDownloadProgressEvent _ _ => DownloadProgress
  | HttpResponseEvent _ => Response
  | HttpUserEvent => User
  end.
End Generic.

Arguments HttpSentEvent {T}.
Arguments HttpUploadProgressEvent {T}.
Arguments HttpHeaderResponse {T}.
Arguments HttpDownloadProgressEvent {T}.
Arguments HttpUserEvent {T}.

End Angular.

Import Angular.

(* ===================================================================== *)
(** ** The loose comparer *)
(* ===================================================================== *)

Module COMPARERS.

(** Modelled from the spec: a value is empty when it is [undefined],
    [null], the empty string or a structurally empty object or sequence
    (step 1 of the comparer's algorithm; [library/comparers] is not part of
    the sources at hand). *)
Definition isEmpty (v : LooseValue) : bool :=
  match v with
  | LUndefined | LNull => true
  | LString s => String.eqb s ""
  | LPairs [] | LObject [] => true
  | _ => false
  end.

(** Modelled from the spec: the scalars, which compare by value. *)
Definition isScalar (v : LooseValue) : bool :=
  match v with
  | LString _ | LNumber _ | LBoolean _ => true
  | _ => false
  end.

(** Modelled from the spec: scalars compare by value (step 3). *)
Definition scalarEqual (a b : LooseValue) : bool :=
  match a, b with
  | LString s, LString t => String.eqb s t
  | LNumber n, LNumber m => Z.eqb n m
  | LBoolean x, LBoolean y => Bool.eqb x y
  | _, _ => false
  end.

(** Modelled from the spec: the (name, value) pairs of a value;
    [undefined] and [null] have none. *)
Definition entries (v : LooseValue) : list (string * LooseValue) :=
  match v with
  | LPairs l | LObject l => l
  | _ => []
  end.

(** Modelled from the spec: the union of the names of both sides
    (step 2). *)
Definition names (a b : LooseValue) : list string :=
  List.map fst (entries a) ++ List.map fst (entries b).

(** Modelled from the spec: the value of [name] in one side, an absent
    name giving an empty value (step 3). *)
Definition lookup (name : string) (v : LooseValue) : LooseValue :=
  match assoc name (entries v) with
  | Some x => x
  | None => LUndefined
  end.

(** Nesting depth of a value. *)
Fixpoint depth (v : LooseValue) : nat :=
  match v with
  | LPairs l | LObject l =>
      S (fold_right (fun kv d => Nat.max (depth (snd kv)) d) 0 l)
  | _ => 0
  end.

(** Modelled from the spec: steps 2 to 4 of the comparer.  Two values, at
    least one of them a scalar, are equal when both are empty or they are
    equal scalars.  Otherwise every name of the union is looked up in each
    side, and the two values found must both be empty, or both be
    non-empty and equal under the same comparison.  [fuel] bounds the
    nesting that is followed. *)
Fixpoint compare (fuel : nat) (a b : LooseValue) : bool :=
  match fuel with
  | 0 => false
  | S fuel' =>
      if isScalar a || isScalar b then
        (isEmpty a && isEmpty b) || scalarEqual a b
      else
        forallb
          (fun name =>
             let x := lookup name a in
             let y := lookup name b in
             (isEmpty x && isEmpty y)
             || (negb (isEmpty x) && negb (isEmpty y) && compare fuel' x y))
          (names a b)
  end.

(** Modelled from the spec: [COMPARERS.areBasicallyEqual] of
    [library/comparers] (the comparer of section 4.2 of the
    specification), not part of the sources at hand.  The comparison
    follows the first argument to its full depth. *)
Definition areBasicallyEqual (a b : LooseValue) : bool :=
  compare (S (depth a)) a b.

End COMPARERS.

(* ===================================================================== *)
(** ** The state the methods run in *)
(* ===================================================================== *)

Module Runtime.

(** [IHttpCacheSettings], with the three options of
    [getDefaultCacheSettings] in [provider.ts]. *)
Record IHttpCacheSettings : Type := mkSettings {
  enableInterceptor : bool;
  shouldCacheAuthorization : bool;
  verbose : bool
}.

(** [getDefaultCacheSettings()] *)
Definition getDefaultCacheSettings : IHttpCacheSettings :=
  {| enableInterceptor := true;
     shouldCacheAuthorization := false;
     verbose := false |}.

(** [{ ...defaultSettings, ...cacheSettings }] for a caller that sets only
    [verbose]. *)
Definition with_verbose (v : bool) (s : IHttpCacheSettings)
  : IHttpCacheSettings :=
  {| enableInterceptor := enableInterceptor s;
     shouldCacheAuthorization := shouldCacheAuthorization s;
     verbose := v |}.

(** How a call ends: it returns a value, or it throws. *)
Inductive JsError : Type :=
| TypeError.

Inductive Completion (A : Type) : Type :=
| Returned (value : A)
| Thrown (error : JsError).

Arguments Thrown {A}.

(** The completion of [f(x)] when evaluating [x] completed as [c]. *)
Definition map_returned (A B : Type) (f : A -> B) (c : Completion A)
  : Completion B :=
  match c with
  | Returned a => Returned (f a)
  | Thrown e => Thrown e
  end.

Section Generic.
Variable T : Type.

(** [IHttpCacheItem<T>], with the two fields [createHttpCacheItem] gives
    it.  A cache item is a JavaScript object: [ref] is its identity, the one
    thing [===] and [!==] look at; the service never assigns [request] or
    [response] after creation. *)
Record IHttpCacheItem : Type := mkItem {
  ref : nat;
  request : HttpRequest T;
  response : HttpResponse T
}.

(** [a === b] on two cache items. *)
Definition same_object (a b : IHttpCacheItem) : bool :=
  Nat.eqb (ref a) (ref b).

(** The fields of the service object. *)
Record HttpCacheService : Type := mkService {
  settings : IHttpCacheSettings;
  _cache : list IHttpCacheItem
}.

(** What a call of [console.log] in the service prints. *)
Inductive ConsoleLine : Type :=
| LogInitializing (cache : list IHttpCacheItem)
| LogCaching (method url : string) (params : Params)
| LogBustingAll
| LogBusting (method : string) (url : option string) (params : Params).

(** The service object, the console and the allocator of object
    identities. *)
Record World : Type := mkWorld {
  this : HttpCacheService;
  console : list ConsoleLine;
  nextObject : nat
}.

(** A method body: a function of the world to a result and a world. *)
Definition M (A : Type) : Type := World -> A * World.

Definition ret (A : Type) (a : A) : M A := fun w => (a, w).

Definition bind (A B : Type) (m : M A) (f : A -> M B) : M B :=
  fun w => let (a, w') := m w in f a w'.

Definition result (A : Type) (m : M A) (w : World) : A := fst (m w).
Definition after (A : Type) (m : M A) (w : World) : World := snd (m w).

(** [this.settings] *)
Definition get_settings : M IHttpCacheSettings :=
  fun w => (settings (this w), w).

(** [this._cache] *)
Definition get_cache : M (list IHttpCacheItem) :=
  fun w => (_cache (this w), w).

(** [this._cache = items] *)
Definition set_cache (items : list IHttpCacheItem) : M unit :=
  fun w =>
    (tt, {| this := {| settings := settings (this w); _cache := items |};
            console := console w;
            nextObject := nextObject w |}).

(** [this._cache.push(item)] *)
Definition push (item : IHttpCacheItem) : M unit :=
  fun w =>
    (tt, {| this := {| settings := settings (this w);
                       _cache := _cache (this w) ++ [item] |};
            console := console w;
            nextObject := nextObject w |}).

(** [console.log(...)] *)
Definition console_log (line : ConsoleLine) : M unit :=
  fun w =>
    (tt, {| this := this w;
            console := console w ++ [line];
            nextObject := nextObject w |}).

(** An object literal [{ request, response }]: a new object, whose
    identity no earlier object has. *)
Definition new_object (req : HttpRequest T) (resp : HttpResponse T)
  : M IHttpCacheItem :=
  fun w =>
    ({| ref := nextObject w; request := req; response := resp |},
     {| this := this w;
        console := console w;
        nextObject := S (nextObject w) |}).

(** [if (c) { m }] *)
Definition when (c : bool) (m : M unit) : M unit :=
  if c then m else ret tt.

(** The service's own view of the world: its cache with every item's
    identity, and nothing of the console. *)
Definition cache_of (w : World) : list IHttpCacheItem := _cache (this w).

(** Every object of the cache was allocated before [nextObject]. *)
Definition allocated (w : World) : Prop :=
  Forall (fun item => ref item < nextObject w) (cache_of w).

(** The positions of the cache hold pairwise distinct objects. *)
Definition distinct_objects (items : list IHttpCacheItem) : Prop :=
  NoDup (List.map ref items).

End Generic.

Arguments LogBustingAll {T}.
Arguments LogCaching {T}.
Arguments LogBusting {T}.
Arguments ret {T A}.
Arguments bind {T A B}.
Arguments get_settings {T}.
Arguments get_cache {T}.

Declare Scope cache_monad_scope.
Delimit Scope cache_monad_scope with cache.
Notation "x <- m ;; k" := (bind m (fun x => k))
  (at level 61, m at next level, right associativity) : cache_monad_scope.
Notation "m ;; k" := (bind m (fun _ => k))
  (at level 61, right associativity) : cache_monad_scope.

End Runtime.

Import Runtime.
Local Open Scope cache_monad_scope.

(* ===================================================================== *)
(** ** The methods of [HttpCacheService] *)
(* ===================================================================== *)

Module Service.

(** The first argument of [find], [has] and [bust]: an [HttpRequest] or a
    method name. *)
Inductive MethodArg (T : Type) : Type :=
| ArgRequest (request : HttpRequest T)
| ArgString (method : string).

Arguments ArgString {T}.

Section Methods.
Variable T : Type.

(** [COMPARERS.areBasicallyEqual], imported from [library/comparers]. *)
Variable areBasicallyEqual : LooseValue -> LooseValue -> bool.

Local Abbreviation Item := (IHttpCacheItem T).

(** [initialize(cache)] *)
Definition initialize (cache : list Item) : M T unit :=
  console_log (LogInitializing cache) ;;
  set_cache cache.

(** [new HttpCacheService(settings, preloadedCache)], in a runtime with
    the given console and allocator. *)
Definition constructor (s : IHttpCacheSettings) (preloadedCache : list Item)
    (console0 : list (ConsoleLine T)) (nextObject0 : nat) : World T :=
  after (initialize preloadedCache)
    {| this := {| settings := s; _cache := [] |};
       console := console0;
       nextObject := nextObject0 |}.

(** [convertHttpParamsToLooseValue(params)] *)
Definition convertHttpParamsToLooseValue (params : Params) : LooseValue :=
  match params with
  | ParamsHttp p =>
      let keys := keys p in
      LPairs (List.map (fun key => (key, get p key)) keys)
  | ParamsRaw raw => LObject raw
  | ParamsUndefined => LUndefined
  end.

(** [paramsAreBasicallyEqual(params1, params2)] *)
Definition paramsAreBasicallyEqual (params1 params2 : Params) : bool :=
  let looseParams1 := convertHttpParamsToLooseValue params1 in
  let looseParams2 := convertHttpParamsToLooseValue params2 in
  areBasicallyEqual looseParams1 looseParams2.

(** [hasParams(params)] *)
Definition hasParams (params : option HttpParams) : bool :=
  match params with
  | None => true
  | Some p => Nat.ltb 0 (List.length (keys p))
  end.

(** [find(method, url, params)] *)
Definition find (method : MethodArg T) (url : option string) (params : Params)
  : M T (option Item) :=
  let request :=
    match method with ArgString _ => None | ArgRequest r => Some r end in
  let method :=
    match method with ArgString m => m | ArgRequest r => req_method r end in
  let url :=
    match request with None => url | Some r => Some (req_url r) end in
  let params :=
    match request with None => params | Some r => req_params r end in
  match url with
  | None => ret None
  | Some url =>
      cache <- get_cache ;;
      ret (List.find
             (fun item =>
                if negb (String.eqb (req_method (Runtime.request item)) method)
                   || negb (String.eqb (req_url (Runtime.request item)) url)
                then false
                else paramsAreBasicallyEqual params
                       (req_params (Runtime.request item)))
             cache)
  end.

(** [item !== null] *)
Definition not_null (item : option Item) : bool :=
  match item with Some _ => true | None => false end.

(** [has(method, url, params)] *)
Definition has (method : MethodArg T) (url : option string) (params : Params)
  : M T bool :=
  match method with
  | ArgString m =>
      match url with
      | None => ret false
      | Some u =>
          item <- find (ArgString m) (Some u) params ;;
          ret (not_null item)
      end
  | ArgRequest r =>
      item <- find (ArgRequest r) None ParamsUndefined ;;
      ret (not_null item)
  end.

(** [createHttpCacheItem(request, response)] *)
Definition createHttpCacheItem (req : HttpRequest T) (resp : HttpResponse T)
  : M T Item :=
  new_object req resp.

(** [insert(request, response)].  The guard
    [response.type !== HttpEventType.Response] leaves exactly the
    [HttpResponse] member of the union. *)
Definition insert (req : HttpRequest T) (event : HttpEvent T) : M T unit :=
  match event with
  | HttpResponseEvent resp =>
      s <- get_settings ;;
      when (verbose s)
        (console_log
           (LogCaching (req_method req) (req_url req) (req_params req))) ;;
      item <- createHttpCacheItem req resp ;;
      push item
  | _ => ret tt
  end.

(** [this.cache.filter((cacheItem) => cacheItem !== item)] *)
Definition without (item : Item) (cache : list Item) : list Item :=
  List.filter (fun cacheItem => negb (same_object cacheItem item)) cache.

(** [bust(method, url, params)]; [None] is the call without arguments. *)
Definition bust (method : option (MethodArg T)) (url : option string)
    (params : Params) : M T unit :=
  match method with
  | None =>
      s <- get_settings ;;
      when (verbose s) (console_log LogBustingAll) ;;
      set_cache []
  | Some (ArgString m) =>
      item <- find (ArgString m) url params ;;
      match item with
      | None => ret tt
      | Some item =>
          s <- get_settings ;;
          when (verbose s) (console_log (LogBusting m url params)) ;;
          cache <- get_cache ;;
          set_cache (without item cache)
      end
  | Some (ArgRequest r) =>
      item <- find (ArgRequest r) None ParamsUndefined ;;
      match item with
      | None => ret tt
      | Some item =>
          s <- get_settings ;;
          when (verbose s)
            (console_log
               (LogBusting (req_method r) (Some (req_url r)) (req_params r))) ;;
          cache <- get_cache ;;
          set_cache (without item cache)
      end
  end.

(** The first argument of [find] and [has] as JavaScript passes it: the
    declared type is [HttpRequest<T> | string], and a caller that goes
    around the types can also pass [undefined], [null], or another value
    (a number, a boolean, an object without the fields of a request). *)
Inductive RawArg : Type :=
| RawUndefined
| RawNull
| RawString (method : string)
| RawRequest (request : HttpRequest T)
| RawOther.

(** [typeof method === "string"] *)
Definition typeof_string (method : RawArg) : bool :=
  match method with
  | RawString _ => true
  | _ => false
  end.

(** [item.request.method === method], a string against any value. *)
Definition strict_equal (s : string) (method : RawArg) : bool :=
  match method with
  | RawString m => String.eqb s m
  | _ => false
  end.

(** Lines 59 to 68 of [find], once [method], [url] and [params] are
    settled. *)
Definition scan (method : RawArg) (url : option string) (params : Params)
  : M T (Completion (option Item)) :=
  match url with
  | None => ret (Returned None)
  | Some url =>
      cache <- get_cache ;;
      ret (Returned
             (List.find
                (fun item =>
                   if negb (strict_equal (req_method (Runtime.request item))
                              method)
                      || negb (String.eqb (req_url (Runtime.request item)) url)
                   then false
                   else paramsAreBasicallyEqual params
                          (req_params (Runtime.request item)))
                cache))
  end.

(** [find(method, url, params)] on any first argument.  [request] is
    [null] for a string and the argument itself otherwise; when it is not
    [null], lines 56 to 58 read [request.method], [request.url] and
    [request.params]: reading a property of [undefined] throws, and on a
    value without these fields the three reads give [undefined] (a string
    never gets there: its [request] is [null]). *)
Definition find_js (method : RawArg) (url : option string) (params : Params)
  : M T (Completion (option Item)) :=
  let request := if typeof_string method then RawNull else method in
  match request with
  | RawNull => scan method url params
  | RawRequest r =>
      scan (RawString (req_method r)) (Some (req_url r)) (req_params r)
  | RawUndefined => ret (Thrown TypeError)
  | RawString _ | RawOther => scan RawUndefined None ParamsUndefined
  end.

(** [has(method, url, params)] on any first argument. *)
Definition has_js (method : RawArg) (url : option string) (params : Params)
  : M T (Completion bool) :=
  if typeof_string method then
    match url with
    | None => ret (Returned false)
    | Some u =>
        item <- find_js method (Some u) params ;;
        ret (map_returned not_null item)
    end
  else
    item <- find_js method None ParamsUndefined ;;
    ret (map_returned not_null item).

(** A first argument of the declared type, as JavaScript sees it. *)
Definition raw (method : MethodArg T) : RawArg :=
  match method with
  | ArgRequest r => RawRequest r
  | ArgString m => RawString m
  end.

End Methods.

Arguments RawUndefined {T}.
Arguments RawNull {T}.
Arguments RawString {T}.
Arguments RawOther {T}.

End Service.

Import Service.

(* ===================================================================== *)
(** ** The provider function of [provider.ts] *)
(* ===================================================================== *)

Module Provider.

(** A property of the settings object a caller passes: not there, there
    with the value [undefined], or there with a boolean. *)
Inductive Property : Type :=
| Absent
| Undefined
| Value (b : bool).

(** Modelled from the spec: the declaration of [IHttpCacheSettings] in
    [types/IHttpCacheSettings] is missing; the object a caller passes names
    any of the three recognised options. *)
Record SettingsObject : Type := mkSettingsObject {
  opt_enableInterceptor : Property;
  opt_shouldCacheAuthorization : Property;
  opt_verbose : Property
}.

(** The settings object the spread builds: each field a boolean or
    [undefined] ([None]). *)
Record MergedSettings : Type := mkMerged {
  m_enableInterceptor : option bool;
  m_shouldCacheAuthorization : option bool;
  m_verbose : option bool
}.

(** [if (v)] on a field. *)
Definition truthy (v : option bool) : bool :=
  match v with
  | Some true => true
  | _ => false
  end.

(** One field of [{ ...defaultSettings, ...cacheSettings }]: a property of
    [cacheSettings] that is there wins, whatever its value. *)
Definition spread (default : bool) (given : Property) : option bool :=
  match given with
  | Absent => Some default
  | Undefined => None
  | Value b => Some b
  end.

(** [getCacheSettings(cacheSettings)] *)
Definition getCacheSettings (cacheSettings : SettingsObject) : MergedSettings :=
  let defaultSettings := getDefaultCacheSettings in
  {| m_enableInterceptor :=
       spread (enableInterceptor defaultSettings)
         (opt_enableInterceptor cacheSettings);
     m_shouldCacheAuthorization :=
       spread (shouldCacheAuthorization defaultSettings)
         (opt_shouldCacheAuthorization cacheSettings);
     m_verbose :=
       spread (verbose defaultSettings) (opt_verbose cacheSettings) |}.

Section RestArguments.
(** The serialized cache items and the other values a caller may pass. *)
Variable Item : Type.
Variable Other : Type.

(** One of the rest arguments [...args: any[]]: an array, or any value
    that is not an array (an [HttpFeature], [undefined], ...). *)
Inductive Arg : Type :=
| ArrayArg (items : list Item)
| OtherArg (value : Other).

(** [Array.isArray(arg)] *)
Definition isArray (arg : Arg) : bool :=
  match arg with
  | ArrayArg _ => true
  | OtherArg _ => false
  end.

(** An element of the providers array. *)
Inductive ProviderEntry : Type :=
| HttpClient_providers
| HTTP_CACHE_SETTINGS_useValue (settings : MergedSettings)
| HttpCacheService_class
| Spread_feature (feature : Arg)
| HTTP_INTERCEPTORS_useClass
| PRELOADED_HTTP_CACHE_useValue (preloadedCache : list Item).

(** [makeEnvironmentProviders(providers)] wraps the array as it is. *)
Definition makeEnvironmentProviders (providers : list ProviderEntry)
  : list ProviderEntry := providers.

(** [getPreloadedCache(args)] *)
Definition getPreloadedCache (args : list Arg) : list Item :=
  match args with
  | ArrayArg items :: _ => items
  | _ => []
  end.

(** [getFeatures(args)] *)
Definition getFeatures (args : list Arg) : list Arg :=
  List.filter (fun arg => negb (isArray arg)) args.

(** [addInterceptorIfEnabled(settings, providers)], on the providers array
    and the console. *)
Definition addInterceptorIfEnabled (settings : MergedSettings)
    (providers : list ProviderEntry) (console : list string)
  : list ProviderEntry * list string :=
  if truthy (m_enableInterceptor settings) then
    (providers ++ [HTTP_INTERCEPTORS_useClass],
     if truthy (m_verbose settings)
     then console ++ ["HttpCachingInterceptor enabled"]
     else console)
  else (providers, console).

(** [provideHttpClientWithCache(cacheSettings, ...args)] *)
Definition provideHttpClientWithCache (cacheSettings : SettingsObject)
    (args : list Arg) (console : list string)
  : list ProviderEntry * list string :=
  let settings := getCacheSettings cacheSettings in
  let features := getFeatures args in
  let providers :=
    [HttpClient_providers;
     HTTP_CACHE_SETTINGS_useValue settings;
     HttpCacheService_class] ++ List.map Spread_feature features in
  let (providers, console) :=
    addInterceptorIfEnabled settings providers console in
  if Nat.eqb (List.length args) 0 then
    (makeEnvironmentProviders providers, console)
  else
    let preloadedCache := getPreloadedCache args in
    (makeEnvironmentProviders
       (providers ++ [PRELOADED_HTTP_CACHE_useValue preloadedCache]),
     console).

End RestArguments.

Arguments OtherArg {Item Other}.
Arguments ArrayArg {Item Other}.
Arguments HttpClient_providers {Item Other}.
Arguments HTTP_CACHE_SETTINGS_useValue {Item Other}.
Arguments HttpCacheService_class {Item Other}.
Arguments HTTP_INTERCEPTORS_useClass {Item Other}.
Arguments PRELOADED_HTTP_CACHE_useValue {Item Other}.

End Provider.

(* ===================================================================== *)
(** ** The vocabulary of the properties *)
(* ===================================================================== *)

(** The identity of a request: method, URL and parameters. *)
Record Descriptor : Type := mkDescriptor {
  d_method : string;
  d_url : string;
  d_params : Params
}.

Section Vocabulary.
Variable T : Type.
Variable areBasicallyEqual : LooseValue -> LooseValue -> bool.

Local Abbreviation Item := (IHttpCacheItem T).

(** The descriptor a call of [find], [has] or [bust] names: the one of
    the request object, or the decomposed triple; none when the first
    argument is a method name and the URL is [undefined]. *)
Definition descriptor (method : MethodArg T) (url : option string)
    (params : Params) : option Descriptor :=
  match method with
  | ArgRequest r =>
      Some (mkDescriptor (req_method r) (req_url r) (req_params r))
  | ArgString m =>
      match url with
      | Some u => Some (mkDescriptor m u params)
      | None => None
      end
  end.

(** A request matches a descriptor: the same method, the same URL, and
    parameters the comparer accepts (the descriptor's first, the stored
    ones second). *)
Definition request_matches (d : Descriptor) (r : HttpRequest T) : Prop :=
  req_method r = d_method d /\
  req_url r = d_url d /\
  paramsAreBasicallyEqual areBasicallyEqual (d_params d) (req_params r) = true.

Definition matches (d : Descriptor) (item : Item) : Prop :=
  request_matches d (request item).

(** [found] is the first item of [cache] that matches [d], or nothing when
    no item of [cache] matches. *)
Definition first_match (d : Descriptor) (cache : list Item)
    (found : option Item) : Prop :=
  match found with
  | Some e =>
      exists before later,
        cache = before ++ e :: later /\
        matches d e /\
        forall x, In x before -> ~ matches d x
  | None => forall x, In x cache -> ~ matches d x
  end.

(** The callback of [find], as a function of the descriptor. *)
Definition callback (d : Descriptor) (item : Item) : bool :=
  if negb (String.eqb (req_method (request item)) (d_method d))
     || negb (String.eqb (req_url (request item)) (d_url d))
  then false
  else paramsAreBasicallyEqual areBasicallyEqual (d_params d)
         (req_params (request item)).

(** A complete, successful terminal event, in the words of the
    specification: a full response whose status is in the 2xx range. *)
Definition successful_terminal (event : HttpEvent T) : bool :=
  match event with
  | HttpResponseEvent resp => ok resp
  | _ => false
  end.


(* --------------------------------------------------------------------- *)
(** *** Sequences of operations *)

(** A call of one of the four public operations. *)
Inductive Op : Type :=
| OpFind (method : MethodArg T) (url : option string) (params : Params)
| OpHas (method : MethodArg T) (url : option string) (params : Params)
| OpInsert (req : HttpRequest T) (event : HttpEvent T)
| OpBust (method : option (MethodArg T)) (url : option string)
    (params : Params).

(** What a call returns. *)
Inductive Outcome : Type :=
| Found (item : option Item)
| Answer (b : bool)
| Done.

Definition perform (op : Op) : M T Outcome :=
  match op with
  | OpFind method url params =>
      item <- Service.find areBasicallyEqual method url params ;;
      ret (Found item)
  | OpHas method url params =>
      b <- Service.has areBasicallyEqual method url params ;;
      ret (Answer b)
  | OpInsert req event =>
      insert req event ;; ret Done
  | OpBust method url params =>
      Service.bust areBasicallyEqual method url params ;; ret Done
  end.

Fixpoint perform_all (ops : list Op) : M T (list Outcome) :=
  match ops with
  | [] => ret []
  | op :: rest =>
      o <- perform op ;;
      os <- perform_all rest ;;
      ret (o :: os)
  end.

(** The world with [settings.verbose] set to [v]. *)
Definition set_verbose (v : bool) (w : World T) : World T :=
  {| this := {| settings := with_verbose v (settings (this w));
                _cache := _cache (this w) |};
     console := console w;
     nextObject := nextObject w |}.

(** Two worlds with the same store: the same items at the same
    positions, and the same next identity. *)
Definition same_store (w1 w2 : World T) : Prop :=
  cache_of w1 = cache_of w2 /\ nextObject w1 = nextObject w2.

(** Every item was allocated, and no object sits at two positions. *)
Definition well_formed (w : World T) : Prop :=
  allocated w /\ distinct_objects (cache_of w).

(** The items a sequence of calls creates, in order: one for each
    [insert] of a full response, with the identities the allocator hands
    out from [next] on. *)
Fixpoint appended (ops : list Op) (next : nat) : list Item :=
  match ops with
  | [] => []
  | OpInsert req (HttpResponseEvent resp) :: rest =>
      mkItem next req resp :: appended rest (S next)
  | _ :: rest => appended rest next
  end.

Definition is_bust (op : Op) : bool :=
  match op with
  | OpBust _ _ _ => true
  | _ => false
  end.

(** What [insert] and [bust] print, from the source: one line each when
    [verbose] is set and the call goes past its early returns. *)
Definition printed (op : Op) (w : World T) : list (ConsoleLine T) :=
  if verbose (settings (this w)) then
    match op with
    | OpInsert req (HttpResponseEvent _) =>
        [LogCaching (req_method req) (req_url req) (req_params req)]
    | OpBust None _ _ => [LogBustingAll]
    | OpBust (Some (ArgString m)) url params =>
        match result (Service.find areBasicallyEqual (ArgString m) url params) w
        with
        | Some _ => [LogBusting m url params]
        | None => []
        end
    | OpBust (Some (ArgRequest r)) url params =>
        match
          result (Service.find areBasicallyEqual (ArgRequest r) url params) w
        with
        | Some _ =>
            [LogBusting (req_method r) (Some (req_url r)) (req_params r)]
        | None => []
        end
    | _ => []
    end
  else [].

End Vocabulary.

(* ===================================================================== *)
(** ** Parameter shapes under the loose comparer *)
(* ===================================================================== *)

Module FuzzyParams.
Import COMPARERS.

(** [paramsAreBasicallyEqual] of the service, with the comparer of
    [library/comparers]. *)
Definition fuzzy : Params -> Params -> bool :=
  paramsAreBasicallyEqual areBasicallyEqual.


Definition http_single (name value : string) : Params :=
  ParamsHttp (mkHttpParams [(name, [value])]).




End FuzzyParams.

(* ===================================================================== *)
(** ** A concrete scenario *)
(* ===================================================================== *)

Module Scenario.
Import COMPARERS FuzzyParams.

(** The service with the comparer of [library/comparers], on text
    bodies. *)
Definition find := Service.find (T := string) areBasicallyEqual.
Definition has := Service.has (T := string) areBasicallyEqual.
Definition bust := Service.bust (T := string) areBasicallyEqual.

Definition active (value : string) : Params := http_single "active" value.

(** The method name ["GET"] as a first argument. *)
Definition GET : MethodArg string := ArgString "GET".

(** [GET /users?active=true] *)
Definition getUsers : HttpRequest string :=
  {| req_method := "GET"; req_url := "/users";
     req_params := active "true"; req_body := None |}.

(** [GET /users?active=true&page=], the same request to the comparer. *)
Definition getUsersPage : HttpRequest string :=
  {| req_method := "GET"; req_url := "/users";
     req_params :=
       ParamsHttp (mkHttpParams [("active", ["true"]); ("page", [""])]);
     req_body := None |}.

Definition usersDescriptor : Descriptor :=
  {| d_method := "GET"; d_url := "/users"; d_params := active "true" |}.

Definition okResponse : HttpResponse string :=
  {| status := 200; statusText := "OK"; body := Some "[]" |}.

Definition secondResponse : HttpResponse string :=
  {| status := 200; statusText := "OK"; body := Some "[1]" |}.

Definition serverError : HttpResponse string :=
  {| status := 500; statusText := "Internal Server Error"; body := None |}.

(** A service constructed with the default settings and no preloaded
    items. *)
Definition fresh : World string :=
  constructor getDefaultCacheSettings [] [] 0.

Definition afterFirst : World string :=
  after (insert getUsers (HttpResponseEvent okResponse)) fresh.

Definition afterSecond : World string :=
  after (insert getUsersPage (HttpResponseEvent secondResponse)) afterFirst.

Definition E1 : IHttpCacheItem string := mkItem 0 getUsers okResponse.
Definition E2 : IHttpCacheItem string := mkItem 1 getUsersPage secondResponse.

(** One item object, preloaded at two positions of the array. *)
Definition preloadedTwice : World string :=
  constructor getDefaultCacheSettings [E1; E1] [] 1.

(** [GET /orders], without parameters. *)
Definition getOrders : HttpRequest string :=
  {| req_method := "GET"; req_url := "/orders";
     req_params := ParamsHttp (mkHttpParams []); req_body := None |}.

Definition ordersResponse : HttpResponse string :=
  {| status := 200; statusText := "OK"; body := Some "[7]" |}.

Definition O1 : IHttpCacheItem string := mkItem 2 getOrders ordersResponse.

(** The store after a third response, for another URL. *)
Definition afterThird : World string :=
  after (insert getOrders (HttpResponseEvent ordersResponse)) afterSecond.

(** A find, two inserts with a progress event between them, and a has. *)
Definition calls : list (Op string) :=
  [ OpFind GET (Some "/users") (active "true");
    OpInsert getUsers (HttpResponseEvent okResponse);
    OpInsert getUsers (HttpDownloadProgressEvent 10%Z None);
    OpInsert getUsersPage (HttpResponseEvent secondResponse);
    OpHas GET (Some "/users") (active "true") ].

(** The arguments of [provideHttpClientWithCache(settings, undefined,
    [..])]: a preload array that is not the first rest argument. *)
Definition misplacedPreload
  : list (Provider.Arg (IHttpCacheItem string) unit) :=
  [Provider.OtherArg tt; Provider.ArrayArg [E1]].

End Scenario.

(* ===================================================================== *)
(** ** Proof tools *)
(* ===================================================================== *)

(** Unfold a method call down to the array operation it performs. *)
Ltac run_method :=
  cbv [after result cache_of Service.find Service.has Service.bust
       Service.insert Service.createHttpCacheItem Service.initialize
       bind ret when get_cache get_settings set_cache push console_log
       new_object fst snd];
  cbv beta iota.

(** Case analysis on the outcome of the array search in the goal. *)
Ltac case_find :=
  match goal with
  | |- context [List.find ?f ?l] => destruct (List.find f l); cbv beta iota
  end.

(* ===================================================================== *)
(** ** Facts about JavaScript values *)
(* ===================================================================== *)

Module JsFacts.



End JsFacts.

(* ===================================================================== *)
(** ** Facts about the loose comparer *)
(* ===================================================================== *)

Module ComparerFacts.
Import COMPARERS.

Local Arguments lookup : simpl never.











End ComparerFacts.

(* ===================================================================== *)
(** ** Facts about arrays *)
(* ===================================================================== *)

Module ArrayFacts.

(** [Array.prototype.find] returns the first element the callback
    accepts. *)
Lemma find_first (A : Type) (f : A -> bool) (l : list A) :
  match List.find f l with
  | Some x =>
      exists before later,
        l = before ++ x :: later /\ f x = true /\
        forall y, In y before -> f y = false
  | None => forall y, In y l -> f y = false
  end.
Proof.
  induction l as [| a rest IH]; simpl.
  - tauto.
  - destruct (f a) eqn:Ha.
    + exists [], rest. simpl. tauto.
    + destruct (List.find f rest) as [x |].
      * destruct IH as (before & later & -> & Hx & Hno).
        exists (a :: before), later. simpl.
        repeat split; trivial.
        intros y [<- | Hy]; auto.
      * intros y [<- | Hy]; auto.
Qed.

Lemma find_skips (A : Type) (f : A -> bool) (before : list A) (l : list A) :
  (forall y, In y before -> f y = false) ->
  List.find f (before ++ l) = List.find f l.
Proof.
  induction before as [| a rest IH]; simpl; intros H; [reflexivity |].
  rewrite (H a) by now left.
  apply IH. intros y Hy. apply H. now right.
Qed.

Lemma filter_all (A : Type) (f : A -> bool) (l : list A) :
  (forall y, In y l -> f y = true) -> List.filter f l = l.
Proof.
  induction l as [| a rest IH]; simpl; intros H; [reflexivity |].
  rewrite (H a) by now left.
  f_equal. apply IH. intros y Hy. apply H. now right.
Qed.

Lemma Forall_filter_keeps (A : Type) (P : A -> Prop) (f : A -> bool)
    (l : list A) :
  Forall P l -> Forall P (List.filter f l).
Proof.
  rewrite !Forall_forall. intros H x Hx.
  apply filter_In in Hx. now apply H.
Qed.

Lemma NoDup_map_filter (A B : Type) (g : A -> B) (f : A -> bool) (l : list A) :
  NoDup (List.map g l) -> NoDup (List.map g (List.filter f l)).
Proof.
  induction l as [| a rest IH]; simpl; intros H; [constructor |].
  inversion H as [| ? ? Hout Hrest]; subst.
  destruct (f a); simpl; [| now apply IH].
  constructor; [| now apply IH].
  intros Hin. apply Hout.
  apply in_map_iff in Hin. destruct Hin as (x & Hx & Hf).
  apply filter_In in Hf. apply in_map_iff. exists x. tauto.
Qed.

Lemma find_append (A : Type) (f : A -> bool) (l l' : list A) :
  List.find f (l ++ l') =
  match List.find f l with
  | Some x => Some x
  | None => List.find f l'
  end.
Proof.
  induction l as [| a rest IH]; simpl; [reflexivity |].
  now destruct (f a).
Qed.

(** A filter that keeps the first hit keeps it the first hit. *)
Lemma find_filter_keeps (A : Type) (f g : A -> bool) (l : list A) (e : A) :
  List.find f l = Some e -> g e = true ->
  List.find f (List.filter g l) = Some e.
Proof.
  induction l as [| a rest IH]; simpl; [discriminate |].
  destruct (f a) eqn:Hf.
  - intros [= ->] Hg. rewrite Hg. simpl. now rewrite Hf.
  - intros He Hg. destruct (g a); simpl; [rewrite Hf |]; now apply IH.
Qed.


Lemma filter_shrinks (A : Type) (g : A -> bool) (l : list A) (e : A) :
  In e l -> g e = false -> List.length (List.filter g l) < List.length l.
Proof.
  induction l as [| a rest IH]; simpl; [tauto |].
  intros [-> | Hin] Hg.
  - rewrite Hg. pose proof (filter_length_le g rest). lia.
  - specialize (IH Hin Hg). destruct (g a); simpl; lia.
Qed.

(** In a list without repeated keys an element splits the list in one
    way only. *)
Lemma split_unique (A B : Type) (key : A -> B) (b b' l l' : list A) (e : A) :
  NoDup (List.map key (b ++ e :: l)) ->
  b ++ e :: l = b' ++ e :: l' -> b = b' /\ l = l'.
Proof.
  revert b'. induction b as [| a rest IH]; intros b' Hnd Heq.
  - destruct b' as [| a' rest']; simpl in *.
    + now injection Heq.
    + injection Heq as <- ->. exfalso.
      inversion Hnd as [| ? ? Hout _]; subst. apply Hout.
      rewrite map_app. apply in_or_app. right. now left.
  - destruct b' as [| a' rest']; simpl in *.
    + injection Heq as -> <-. exfalso.
      inversion Hnd as [| ? ? Hout _]; subst. apply Hout.
      rewrite map_app. apply in_or_app. right. now left.
    + injection Heq as <- Heq.
      inversion Hnd as [| ? ? _ Hrest]; subst.
      destruct (IH rest' Hrest Heq) as [-> ->]. auto.
Qed.

End ArrayFacts.

(* ===================================================================== *)
(** ** Properties of the cache store *)
(* ===================================================================== *)

Section Store.
Variable T : Type.
Variable areBasicallyEqual : LooseValue -> LooseValue -> bool.

Local Abbreviation Item := (IHttpCacheItem T).
Local Abbreviation find := (Service.find areBasicallyEqual).
Local Abbreviation has := (Service.has areBasicallyEqual).
Local Abbreviation bust := (Service.bust areBasicallyEqual).

Lemma callback_matches (d : Descriptor) (item : Item) :
  callback areBasicallyEqual d item = true <-> matches areBasicallyEqual d item.
Proof.
  unfold callback, matches, request_matches.
  destruct (String.eqb_spec (req_method (request item)) (d_method d))
    as [Hm | Hm];
    destruct (String.eqb_spec (req_url (request item)) (d_url d))
      as [Hu | Hu];
    simpl; split; try discriminate; try tauto.
Qed.

Lemma callback_no_match (d : Descriptor) (item : Item) :
  callback areBasicallyEqual d item = false <->
  ~ matches areBasicallyEqual d item.
Proof.
  rewrite <- callback_matches.
  destruct (callback areBasicallyEqual d item); split; congruence.
Qed.

(** What [find] computes, for a call that names a descriptor. *)
Lemma find_eq (method : MethodArg T) (url : option string) (params : Params)
    (w : World T) :
  find method url params w =
  match descriptor method url params with
  | Some d => (List.find (callback areBasicallyEqual d) (cache_of w), w)
  | None => (None, w)
  end.
Proof.
  destruct method as [r | m]; [| destruct url as [u |]]; reflexivity.
Qed.

(** [has] is [find] compared with [null]. *)
Lemma has_eq (method : MethodArg T) (url : option string) (params : Params)
    (w : World T) :
  has method url params w = (not_null (result (find method url params) w), w).
Proof.
  destruct method as [r | m]; [| destruct url as [u |]]; reflexivity.
Qed.

(** What [bust] leaves in the cache. *)
Lemma bust_cache (method : MethodArg T) (url : option string) (params : Params)
    (w : World T) :
  cache_of (after (bust (Some method) url params) w) =
  match result (find method url params) w with
  | Some item => without item (cache_of w)
  | None => cache_of w
  end.
Proof.
  destruct method as [r | m]; [| destruct url as [u |]];
    run_method; try reflexivity;
    case_find; try reflexivity;
    destruct (verbose (settings (this w))); reflexivity.
Qed.

Lemma bust_not_found (method : MethodArg T) (url : option string)
    (params : Params) (w : World T) :
  result (find method url params) w = None ->
  after (bust (Some method) url params) w = w.
Proof.
  destruct method as [r | m]; [| destruct url as [u |]];
    run_method; try reflexivity;
    case_find; (discriminate || reflexivity).
Qed.

(** [find] returns the first match of the descriptor the call names. *)
Lemma find_is_first_match (method : MethodArg T) (url : option string)
    (params : Params) (w : World T) (d : Descriptor) :
  descriptor method url params = Some d ->
  first_match areBasicallyEqual d (cache_of w)
    (result (find method url params) w).
Proof.
  intros Hd. unfold result. rewrite find_eq, Hd. simpl.
  pose proof
    (ArrayFacts.find_first (callback areBasicallyEqual d) (cache_of w)) as H.
  unfold first_match.
  destruct (List.find (callback areBasicallyEqual d) (cache_of w)) as [e |].
  - destruct H as (before & later & Hc & He & Hno).
    exists before, later. split; [exact Hc | split].
    + now apply callback_matches.
    + intros x Hx. apply callback_no_match. now apply Hno.
  - intros x Hx. apply callback_no_match. now apply H.
Qed.

Lemma find_pure (method : MethodArg T) (url : option string) (params : Params)
    (w : World T) :
  after (find method url params) w = w.
Proof.
  unfold after. rewrite find_eq.
  now destruct (descriptor method url params).
Qed.

(** What [insert] does with a full response. *)
Lemma insert_response (req : HttpRequest T) (resp : HttpResponse T)
    (w : World T) :
  cache_of (after (insert req (HttpResponseEvent resp)) w) =
    cache_of w ++ [mkItem (nextObject w) req resp] /\
  nextObject (after (insert req (HttpResponseEvent resp)) w) =
    S (nextObject w) /\
  settings (this (after (insert req (HttpResponseEvent resp)) w)) =
    settings (this w).
Proof.
  run_method. destruct (verbose (settings (this w))); simpl; auto.
Qed.



(** Filtering by identity removes one position when the positions hold
    distinct objects. *)
Lemma without_distinct (before later : list Item) (e : Item) :
  distinct_objects (before ++ e :: later) ->
  without e (before ++ e :: later) = before ++ later.
Proof.
  unfold distinct_objects, without. intros Hnd.
  rewrite map_app in Hnd. simpl in Hnd.
  pose proof (NoDup_remove_2 _ _ _ Hnd) as Hout.
  rewrite filter_app. simpl.
  unfold same_object at 2. rewrite Nat.eqb_refl. simpl.
  rewrite in_app_iff in Hout.
  f_equal; apply ArrayFacts.filter_all; intros y Hy;
    unfold same_object; apply negb_true_iff, Nat.eqb_neq;
    intros Heq; apply Hout; [left | right];
    rewrite <- Heq; now apply in_map.
Qed.

(* ------------------------------------------------------------------- *)
(** *** Insertion *)

(** C1, as amended: [insert] leaves the whole state unchanged unless the
    event's type is [HttpEventType.Response]; for an event of that type,
    whatever the status of the response and whatever the store already
    holds, it appends exactly one item to the end of the cache: a new
    object made of the request and the response. *)
Theorem insert_gating (req : HttpRequest T) (event : HttpEvent T)
    (w : World T) :
  if HttpEventType_eqb (type event) Response
  then exists resp,
         event = HttpResponseEvent resp /\
         cache_of (after (insert req event) w) =
           cache_of w ++ [mkItem (nextObject w) req resp]
  else after (insert req event) w = w.
Proof.
  destruct event as [| loaded total | st | loaded total | resp |]; simpl;
    try reflexivity.
  exists resp. split; [reflexivity |]. apply insert_response.
Qed.

(* ------------------------------------------------------------------- *)
(** *** Lookup *)


(** A search whose callback compares the stored method with [null],
    [undefined] or a value that is no string finds nothing. *)
Lemma scan_no_string (method : RawArg T) (url : option string)
    (params : Params) (w : World T) :
  typeof_string method = false ->
  scan areBasicallyEqual method url params w = (Returned None, w).
Proof.
  intros Hm. unfold scan. destruct url as [u |]; [| reflexivity].
  unfold bind, get_cache, ret. f_equal. f_equal.
  induction (_cache (this w)) as [| x rest IH]; simpl; [reflexivity |].
  assert (strict_equal (req_method (request x)) method = false) as ->
    by (destruct method; simpl in *; congruence).
  exact IH.
Qed.

(** On a first argument of the declared type, [find] and [has] as
    JavaScript runs them return what [find] and [has] return. *)
Lemma typed_calls_return (method : MethodArg T) (url : option string)
    (params : Params) (w : World T) :
  find_js areBasicallyEqual (raw method) url params w =
    (Returned (result (find method url params) w), w) /\
  has_js areBasicallyEqual (raw method) url params w =
    (Returned (result (has method url params) w), w).
Proof.
  destruct method as [r | m]; [| destruct url as [u |]];
    split; reflexivity.
Qed.

(** C6, as amended: [find] and [has] return normally, with the state
    unchanged, for every first argument but [undefined], for which they
    throw a [TypeError] (at [request.method], line 56); a first argument
    of the declared type gives the result of the typed call; a method name
    with an [undefined] URL, [null], or a value that is neither a string
    nor a request gives [null] from [find] and [false] from [has]. *)
Theorem lookup_throws_only_on_undefined :
  (forall url params (w : World T),
     find_js areBasicallyEqual RawUndefined url params w
       = (Thrown TypeError, w) /\
     has_js areBasicallyEqual RawUndefined url params w
       = (Thrown TypeError, w)) /\
  (forall method url params (w : World T),
     ((exists found,
         find_js areBasicallyEqual method url params w = (Returned found, w))
      <-> method <> RawUndefined) /\
     ((exists answer,
         has_js areBasicallyEqual method url params w = (Returned answer, w))
      <-> method <> RawUndefined)) /\
  (forall method url params (w : World T),
     find_js areBasicallyEqual (raw method) url params w =
       (Returned (result (find method url params) w), w) /\
     has_js areBasicallyEqual (raw method) url params w =
       (Returned (result (has method url params) w), w)) /\
  (forall m url params (w : World T),
     find_js areBasicallyEqual (RawString m) None params w
       = (Returned None, w) /\
     has_js areBasicallyEqual (RawString m) None params w
       = (Returned false, w) /\
     find_js areBasicallyEqual RawNull url params w = (Returned None, w) /\
     has_js areBasicallyEqual RawNull url params w = (Returned false, w) /\
     find_js areBasicallyEqual RawOther url params w = (Returned None, w) /\
     has_js areBasicallyEqual RawOther url params w = (Returned false, w)).
Proof.
  assert (forall url params (w : World T),
            find_js areBasicallyEqual RawNull url params w
              = (Returned None, w)) as Hnull
    by (intros; apply scan_no_string; reflexivity).
  split; [| split; [| split]].
  - intros url params w. split; reflexivity.
  - intros method url params w.
    destruct method as [| | m | r |].
    + split; split; try congruence; intros [x Hx]; discriminate.
    + split; (split; [discriminate |]); intros _.
      * exists None. apply Hnull.
      * exists false. reflexivity.
    + destruct (typed_calls_return (ArgString m) url params w) as [Hf Hh].
      split; (split; [discriminate |]); intros _; eexists; eassumption.
    + destruct (typed_calls_return (ArgRequest r) url params w) as [Hf Hh].
      split; (split; [discriminate |]); intros _; eexists; eassumption.
    + split; (split; [discriminate |]); intros _;
        eexists; reflexivity.
  - intros method url params w. apply typed_calls_return.
  - intros m url params w. repeat split; try reflexivity.
    apply Hnull.
Qed.

(** C7: [find] and [has] leave the whole state, and so the entry sequence,
    as it was, and [find] repeated any number of times on the state it
    leaves returns the same result. *)
Theorem lookup_is_pure (method : MethodArg T) (url : option string)
    (params : Params) (w : World T) :
  after (find method url params) w = w /\
  after (has method url params) w = w /\
  cache_of (after (find method url params) w) = cache_of w /\
  cache_of (after (has method url params) w) = cache_of w /\
  forall n,
    result (find method url params)
      (Nat.iter n (after (find method url params)) w)
    = result (find method url params) w.
Proof.
  assert (after (has method url params) w = w) as Hhas
    by (unfold after; now rewrite has_eq).
  repeat split; trivial.
  - apply find_pure.
  - now rewrite find_pure.
  - now rewrite Hhas.
  - intros n. induction n as [| n IH]; simpl; [reflexivity |].
    now rewrite find_pure.
Qed.

(* ------------------------------------------------------------------- *)
(** *** Busting *)


(** C4: [bust] without a descriptor leaves an empty entry sequence, and
    [find] on any descriptor then returns [null]. *)
Theorem bust_all_clears (url : option string) (params : Params) (w : World T) :
  cache_of (after (bust None url params) w) = [] /\
  forall method' url' params',
    result (find method' url' params') (after (bust None url params) w) = None.
Proof.
  assert (cache_of (after (bust None url params) w) = []) as Hempty
    by (run_method; now destruct (verbose (settings (this w)))).
  split; [exact Hempty |].
  intros method' url' params'. unfold result. rewrite find_eq, Hempty.
  now destruct (descriptor method' url' params').
Qed.

End Store.

(* ===================================================================== *)
(** ** Properties of the parameter helpers *)
(* ===================================================================== *)

(** C8: [hasParams] returns [true] exactly when the parameters are
    [undefined] or have at least one key, and [false] exactly when they are
    a defined container without keys. *)
Theorem hasParams_polarity (params : option HttpParams) :
  (hasParams params = true <->
     params = None \/ exists p, params = Some p /\ keys p <> []) /\
  (hasParams params = false <->
     exists p, params = Some p /\ keys p = []).
Proof.
  destruct params as [p |]; unfold hasParams.
  - destruct (keys p) as [| k rest] eqn:Hk; simpl.
    + split.
      * split; [discriminate |].
        intros [H | (q & Hq & Hne)]; [discriminate |].
        injection Hq as <-. congruence.
      * split; [| reflexivity]. intros _. now exists p.
    + split.
      * split; [| reflexivity]. intros _. right. exists p.
        rewrite Hk. split; [reflexivity | discriminate].
      * split; [discriminate |].
        intros (q & Hq & He). injection Hq as <-. congruence.
  - split.
    + split; [| reflexivity]. intros _. now left.
    + split; [discriminate |]. intros (q & Hq & _). discriminate.
Qed.

(** C9: for an [HttpParams] the normalizer produces one pair per key of
    [keys()], in that order, whose value is what [get] returns for the key,
    which is the first of the key's values and none of the others; for
    [undefined] it yields [undefined], which is not the empty sequence; a raw
    mapping is passed through unchanged. *)
Theorem convert_shapes :
  (forall p : HttpParams,
     exists pairs,
       convertHttpParamsToLooseValue (ParamsHttp p) = LPairs pairs /\
       List.map fst pairs = keys p /\
       List.length pairs = List.length (keys p) /\
       List.map snd pairs = List.map (get p) (keys p)) /\
  (forall (p : HttpParams) key first others,
     getAll p key = Some (first :: others) -> get p key = LString first) /\
  convertHttpParamsToLooseValue ParamsUndefined = LUndefined /\
  LUndefined <> LPairs [] /\
  (forall raw : RawParams,
     convertHttpParamsToLooseValue (ParamsRaw raw) = LObject raw).
Proof.
  split; [| split; [| split; [| split]]].
  - intros p. eexists. split; [reflexivity |].
    rewrite !List.map_map, List.length_map. simpl.
    split; [apply List.map_id | split; reflexivity].
  - intros p key first others H. unfold get, getAll in *. now rewrite H.
  - reflexivity.
  - discriminate.
  - reflexivity.
Qed.

(* ===================================================================== *)
(** ** Sequences of operations *)
(* ===================================================================== *)

Section Traces.
Variable T : Type.
Variable areBasicallyEqual : LooseValue -> LooseValue -> bool.

Local Abbreviation Item := (IHttpCacheItem T).

Lemma perform_same_store (op : Op T) (w1 w2 : World T) :
  same_store w1 w2 ->
  result (perform areBasicallyEqual op) w1 =
    result (perform areBasicallyEqual op) w2 /\
  same_store (after (perform areBasicallyEqual op) w1)
    (after (perform areBasicallyEqual op) w2).
Proof.
  destruct w1 as [[s1 c1] o1 n1], w2 as [[s2 c2] o2 n2].
  unfold same_store, cache_of. simpl. intros [-> ->].
  destruct op as [method url params | method url params | req event
                 | method url params].
  - destruct method as [r | m]; [| destruct url as [u |]];
      cbv [perform]; run_method; simpl; auto.
  - destruct method as [r | m]; [| destruct url as [u |]];
      cbv [perform]; run_method; simpl; auto.
  - destruct event; cbv [perform]; run_method; simpl; auto.
    destruct (verbose s1), (verbose s2); simpl; auto.
  - destruct method as [[r | m] |]; [| destruct url as [u |] |];
      cbv [perform]; run_method; simpl; auto;
      try case_find; simpl; auto;
      destruct (verbose s1), (verbose s2); simpl; auto.
Qed.

Lemma perform_all_same_store (ops : list (Op T)) :
  forall w1 w2,
    same_store w1 w2 ->
    result (perform_all areBasicallyEqual ops) w1 =
      result (perform_all areBasicallyEqual ops) w2 /\
    same_store (after (perform_all areBasicallyEqual ops) w1)
      (after (perform_all areBasicallyEqual ops) w2).
Proof.
  induction ops as [| op rest IH]; intros w1 w2 Hs; simpl.
  - split; [reflexivity | exact Hs].
  - destruct (perform_same_store op Hs) as [Hr Hs'].
    destruct (IH _ _ Hs') as [Hrs Hs''].
    unfold result, after, bind in *.
    destruct (perform areBasicallyEqual op w1) as [x1 w1'],
             (perform areBasicallyEqual op w2) as [x2 w2'].
    simpl in *.
    destruct (perform_all areBasicallyEqual rest w1') as [y1 w1''],
             (perform_all areBasicallyEqual rest w2') as [y2 w2''].
    simpl in *. subst. auto.
Qed.

(** With [verbose] off no operation prints. *)
Lemma perform_quiet (op : Op T) (w : World T) :
  verbose (settings (this w)) = false ->
  console (after (perform areBasicallyEqual op) w) = console w /\
  verbose (settings (this (after (perform areBasicallyEqual op) w))) = false.
Proof.
  destruct w as [[s c] o n]. simpl. intros Hv.
  destruct op as [method url params | method url params | req event
                 | method url params].
  - destruct method as [r | m]; [| destruct url as [u |]];
      cbv [perform]; run_method; simpl; auto.
  - destruct method as [r | m]; [| destruct url as [u |]];
      cbv [perform]; run_method; simpl; auto.
  - destruct event; cbv [perform]; run_method; simpl; auto.
    rewrite Hv. simpl. auto.
  - destruct method as [[r | m] |]; [| destruct url as [u |] |];
      cbv [perform]; run_method; simpl; auto;
      try case_find; simpl; auto;
      rewrite Hv; simpl; auto.
Qed.

Lemma perform_all_quiet (ops : list (Op T)) :
  forall w,
    verbose (settings (this w)) = false ->
    console (after (perform_all areBasicallyEqual ops) w) = console w.
Proof.
  induction ops as [| op rest IH]; intros w Hv; simpl; [reflexivity |].
  destruct (perform_quiet op w Hv) as [Hc Hv'].
  specialize (IH _ Hv').
  unfold after, bind in *.
  destruct (perform areBasicallyEqual op w) as [x w']. simpl in *.
  destruct (perform_all areBasicallyEqual rest w') as [y w'']. simpl in *.
  congruence.
Qed.

(** C10: from the same initial store, a sequence of [find], [has],
    [insert] and [bust] calls returns the same values and leaves the same
    store whether [settings.verbose] is [true] or [false]; with [verbose]
    off nothing is printed, so the setting decides the console only. *)
Theorem verbose_only_logs (ops : list (Op T)) (w : World T) (v1 v2 : bool) :
  result (perform_all areBasicallyEqual ops) (set_verbose v1 w) =
    result (perform_all areBasicallyEqual ops) (set_verbose v2 w) /\
  cache_of (after (perform_all areBasicallyEqual ops) (set_verbose v1 w)) =
    cache_of (after (perform_all areBasicallyEqual ops) (set_verbose v2 w)) /\
  console (after (perform_all areBasicallyEqual ops) (set_verbose false w)) =
    console w.
Proof.
  assert (same_store (set_verbose v1 w) (set_verbose v2 w)) as Hs
    by (split; reflexivity).
  destruct (perform_all_same_store ops Hs) as [Hr [Hc _]].
  repeat split; trivial.
  now rewrite perform_all_quiet.
Qed.

(* ------------------------------------------------------------------- *)
(** *** The stores the operations build *)

Lemma append_fresh (c : list Item) (n : nat) (req : HttpRequest T)
    (resp : HttpResponse T) :
  Forall (fun item : Item => ref item < n) c ->
  NoDup (List.map (@ref T) c) ->
  Forall (fun item : Item => ref item < S n) (c ++ [mkItem n req resp]) /\
  NoDup (List.map (@ref T) (c ++ [mkItem n req resp])).
Proof.
  intros Ha Hd. split.
  - apply Forall_app. split.
    + eapply Forall_impl; [| exact Ha]. simpl. intros; lia.
    + constructor; [simpl; lia | constructor].
  - rewrite map_app. simpl.
    apply NoDup_app; [exact Hd | repeat constructor; simpl; tauto |].
    intros x Hx [<- | []].
    apply in_map_iff in Hx. destruct Hx as (item & Hr & Hin).
    rewrite Forall_forall in Ha. specialize (Ha item Hin). lia.
Qed.

(** The four operations keep a store well formed: [insert] adds a new
    object, [bust] only removes positions. *)
Lemma perform_well_formed (op : Op T) (w : World T) :
  well_formed w -> well_formed (after (perform areBasicallyEqual op) w).
Proof.
  destruct w as [[s c] o n].
  unfold well_formed, allocated, distinct_objects, cache_of. simpl.
  intros [Ha Hd].
  destruct op as [method url params | method url params | req event
                 | method url params].
  - destruct method as [r | m]; [| destruct url as [u |]];
      cbv [perform]; run_method; simpl; auto.
  - destruct method as [r | m]; [| destruct url as [u |]];
      cbv [perform]; run_method; simpl; auto.
  - destruct event; cbv [perform]; run_method; simpl; auto.
    destruct (verbose s); simpl; now apply append_fresh.
  - destruct method as [[r | m] |]; [| destruct url as [u |] |];
      cbv [perform]; run_method; simpl; auto;
      try case_find; simpl; auto;
      destruct (verbose s); simpl;
      (split;
       [ first [ now apply ArrayFacts.Forall_filter_keeps | constructor ]
       | first [ now apply ArrayFacts.NoDup_map_filter | constructor ] ]).
Qed.

Lemma perform_all_well_formed (ops : list (Op T)) :
  forall w,
    well_formed w ->
    well_formed (after (perform_all areBasicallyEqual ops) w).
Proof.
  induction ops as [| op rest IH]; intros w Hw; simpl; [exact Hw |].
  pose proof (perform_well_formed op Hw) as Hw'.
  specialize (IH _ Hw').
  unfold after, bind in *.
  destruct (perform areBasicallyEqual op w) as [x w']. simpl in *.
  destruct (perform_all areBasicallyEqual rest w') as [y w'']. simpl in *.
  exact IH.
Qed.

(** X16: a service constructed without preloaded items, then driven by
    any calls, holds pairwise distinct objects: no object is cached at two
    positions. *)
Lemma built_by_calls_distinct (s : IHttpCacheSettings)
    (console0 : list (ConsoleLine T)) (nextObject0 : nat) (ops : list (Op T)) :
  distinct_objects
    (cache_of (after (perform_all areBasicallyEqual ops)
                 (constructor s [] console0 nextObject0))).
Proof.
  apply perform_all_well_formed.
  split; [constructor | constructor].
Qed.

End Traces.

(* ===================================================================== *)
(** ** How the operations compose *)
(* ===================================================================== *)

Section Composition.
Variable T : Type.
Variable areBasicallyEqual : LooseValue -> LooseValue -> bool.

Local Abbreviation Item := (IHttpCacheItem T).
Local Abbreviation find := (Service.find areBasicallyEqual).
Local Abbreviation has := (Service.has areBasicallyEqual).
Local Abbreviation bust := (Service.bust areBasicallyEqual).
Local Abbreviation hit := (callback areBasicallyEqual).

(** The value [find] returns, as an array search. *)
Lemma find_result (method : MethodArg T) (url : option string)
    (params : Params) (w : World T) :
  result (find method url params) w =
  match descriptor method url params with
  | Some d => List.find (hit d) (cache_of w)
  | None => None
  end.
Proof.
  unfold result. rewrite find_eq.
  now destruct (descriptor method url params).
Qed.

Lemma has_result (method : MethodArg T) (url : option string)
    (params : Params) (w : World T) :
  result (has method url params) w =
  not_null (result (find method url params) w).
Proof. unfold result at 1. now rewrite has_eq. Qed.

Lemma find_member (method : MethodArg T) (url : option string)
    (params : Params) (w : World T) (e : Item) :
  result (find method url params) w = Some e ->
  In e (cache_of w) /\ same_object e e = true.
Proof.
  rewrite find_result. destruct (descriptor method url params) as [d |];
    [| discriminate].
  intros H. apply find_some in H. split; [tauto |].
  apply Nat.eqb_refl.
Qed.


(** X3: what [find] returns after an [insert]: a hit before the insert
    stays the same hit, whatever is inserted; a miss becomes a hit only
    when the event is a full response and the inserted request matches the
    descriptor, and the hit is then the new item. *)
Theorem find_after_insert (method : MethodArg T) (url : option string)
    (params : Params) (req : HttpRequest T) (event : HttpEvent T)
    (w : World T) :
  result (find method url params) (after (insert req event) w) =
  match result (find method url params) w with
  | Some e => Some e
  | None =>
      match event, descriptor method url params with
      | HttpResponseEvent resp, Some d =>
          if hit d (mkItem (nextObject w) req resp)
          then Some (mkItem (nextObject w) req resp)
          else None
      | _, _ => None
      end
  end.
Proof.
  rewrite !find_result.
  destruct event as [| loaded total | st | loaded total | resp |];
    try (change (after (insert req _) w) with w;
         now destruct (descriptor method url params) as [d |];
           [destruct (List.find (hit d) (cache_of w)) |]).
  destruct (descriptor method url params) as [d |]; [| reflexivity].
  destruct (insert_response req resp w) as (-> & _).
  rewrite ArrayFacts.find_append. simpl.
  now destruct (List.find (hit d) (cache_of w)).
Qed.

(** X2: when the comparer accepts the request's parameters against
    themselves, a response inserted for a request is found again: [has]
    answers [true] for the request, in both call shapes, and [find] returns
    the new item when no earlier item matches. *)
Theorem insert_then_found (req : HttpRequest T) (resp : HttpResponse T)
    (url : option string) (params : Params) (w : World T) :
  paramsAreBasicallyEqual areBasicallyEqual (req_params req) (req_params req)
    = true ->
  let w' := after (insert req (HttpResponseEvent resp)) w in
  result (has (ArgRequest req) url params) w' = true /\
  result
    (has (ArgString (req_method req)) (Some (req_url req)) (req_params req))
    w' = true /\
  ((forall x, In x (cache_of w) ->
      ~ request_matches areBasicallyEqual
          (mkDescriptor (req_method req) (req_url req) (req_params req))
          (request x)) ->
   result (find (ArgRequest req) url params) w'
     = Some (mkItem (nextObject w) req resp)).
Proof.
  intros Hrefl w'.
  set (d := mkDescriptor (req_method req) (req_url req) (req_params req)).
  assert (hit d (mkItem (nextObject w) req resp) = true) as Hnew
    by (apply callback_matches; repeat split; trivial).
  assert (forall method u p,
            descriptor method u p = Some d ->
            result (find method u p) w' =
            match result (find method u p) w with
            | Some e => Some e
            | None => Some (mkItem (nextObject w) req resp)
            end) as Hfind.
  { intros method u p Hd. unfold w'.
    rewrite !find_result, Hd.
    destruct (insert_response req resp w) as (-> & _).
    rewrite ArrayFacts.find_append. simpl. rewrite Hnew.
    reflexivity. }
  split; [| split].
  - rewrite has_result, (Hfind (ArgRequest req) url params eq_refl).
    now destruct (result (find (ArgRequest req) url params) w).
  - rewrite has_result,
      (Hfind (ArgString (req_method req)) (Some (req_url req))
         (req_params req) eq_refl).
    now destruct (result (find (ArgString (req_method req))
                            (Some (req_url req)) (req_params req)) w).
  - intros Hno. rewrite (Hfind (ArgRequest req) url params eq_refl).
    rewrite find_result. simpl. fold d.
    destruct (List.find (hit d) (cache_of w)) as [e |] eqn:He; [| reflexivity].
    apply find_some in He. destruct He as [Hin Hhit].
    apply callback_matches in Hhit. now destruct (Hno e Hin).
Qed.

(** X4: [bust] with a descriptor that [find] resolves to an item keeps
    exactly the items that are other objects than that item, in their
    order: no position holds the found object afterwards, every other
    object stays, and the cache gets shorter. *)
Theorem bust_by_identity (method : MethodArg T) (url : option string)
    (params : Params) (w : World T) (e : Item) :
  result (find method url params) w = Some e ->
  let cache' := cache_of (after (bust (Some method) url params) w) in
  (forall x, In x cache' <-> In x (cache_of w) /\ ref x <> ref e) /\
  cache' = List.filter (fun x => negb (same_object x e)) (cache_of w) /\
  List.length cache' < List.length (cache_of w).
Proof.
  intros Hfind cache'. unfold cache'. rewrite bust_cache, Hfind.
  unfold without. split; [| split].
  - intros x. rewrite filter_In. unfold same_object.
    rewrite negb_true_iff, Nat.eqb_neq. tauto.
  - reflexivity.
  - destruct (find_member _ _ _ _ Hfind) as [Hin Hsame].
    apply ArrayFacts.filter_shrinks with (e := e); [exact Hin |].
    now rewrite Hsame.
Qed.

(** X5: [bust] with a descriptor leaves the whole state as it was exactly
    when [has] answers [false] for the same arguments: a miss changes and
    prints nothing, a hit always removes something. *)
Theorem bust_noop_iff_miss (method : MethodArg T) (url : option string)
    (params : Params) (w : World T) :
  after (bust (Some method) url params) w = w <->
  result (has method url params) w = false.
Proof.
  rewrite has_result. split.
  - intros Hsame.
    destruct (result (find method url params) w) as [e |] eqn:Hfind;
      [| reflexivity].
    exfalso.
    pose proof (bust_cache areBasicallyEqual method url params w) as Hc.
    rewrite Hsame, Hfind in Hc.
    destruct (find_member _ _ _ _ Hfind) as [Hin Hself].
    assert (List.length (without e (cache_of w)) < List.length (cache_of w))
      as Hlt
      by (apply ArrayFacts.filter_shrinks with (e := e);
          [exact Hin | now rewrite Hself]).
    rewrite <- Hc in Hlt. lia.
  - intros Hnone. apply bust_not_found.
    now destruct (result (find method url params) w).
Qed.

(** X6: in a store of pairwise distinct objects, after [bust] removed the
    item [find] returned, [find] with the same arguments returns the next
    match: the first item behind the removed one that matches, or [null]
    when there is none. *)
Theorem bust_then_next_match (method : MethodArg T) (url : option string)
    (params : Params) (d : Descriptor) (w : World T) (e : Item) :
  descriptor method url params = Some d ->
  distinct_objects (cache_of w) ->
  result (find method url params) w = Some e ->
  exists before later,
    cache_of w = before ++ e :: later /\
    (forall x, In x before -> ~ matches areBasicallyEqual d x) /\
    cache_of (after (bust (Some method) url params) w) = before ++ later /\
    first_match areBasicallyEqual d later
      (result (find method url params)
         (after (bust (Some method) url params) w)).
Proof.
  intros Hd Hnd Hfind.
  pose proof (find_is_first_match areBasicallyEqual method url params w Hd)
    as Hfirst.
  rewrite Hfind in Hfirst. destruct Hfirst as (before & later & Hc & He & Hno).
  exists before, later.
  assert (cache_of (after (bust (Some method) url params) w) = before ++ later)
    as Hafter.
  { rewrite bust_cache, Hfind, Hc. apply without_distinct. now rewrite <- Hc. }
  repeat split; trivial.
  rewrite find_result, Hd, Hafter.
  rewrite ArrayFacts.find_skips
    by (intros y Hy; apply callback_no_match; now apply Hno).
  pose proof (ArrayFacts.find_first (hit d) later) as Hl.
  unfold first_match. destruct (List.find (hit d) later) as [e2 |].
  - destruct Hl as (b2 & l2 & -> & Hhit & Hnone).
    exists b2, l2. split; [reflexivity | split].
    + now apply callback_matches.
    + intros x Hx. apply callback_no_match. now apply Hnone.
  - intros x Hx. apply callback_no_match. now apply Hl.
Qed.

(** X7: [bust] for one descriptor does not disturb the hits of others: an
    item [find] returns for some arguments is still what [find] returns for
    them after a [bust] that removes a different object (or nothing). *)
Theorem bust_keeps_other_hits (method method' : MethodArg T)
    (url url' : option string) (params params' : Params) (w : World T)
    (e' : Item) :
  result (find method' url' params') w = Some e' ->
  (forall e, result (find method url params) w = Some e ->
             same_object e' e = false) ->
  result (find method' url' params')
    (after (bust (Some method) url params) w) = Some e'.
Proof.
  intros Hhit Hother.
  destruct (result (find method url params) w) as [e |] eqn:Hfind.
  - rewrite find_result in Hhit |- *.
    destruct (descriptor method' url' params') as [d' |]; [| discriminate].
    rewrite bust_cache, Hfind. unfold without.
    apply ArrayFacts.find_filter_keeps; [exact Hhit |].
    now rewrite (Hother e eq_refl).
  - now rewrite (bust_not_found areBasicallyEqual method url params w Hfind).
Qed.

(** X8: the two call shapes agree: [find], [has] and [bust] called with a
    request object do what they do when called with the request's method,
    URL and parameters, whatever else is passed beside the request. *)
Theorem call_shapes_agree (r : HttpRequest T) (url : option string)
    (params : Params) (w : World T) :
  find (ArgRequest r) url params w =
    find (ArgString (req_method r)) (Some (req_url r)) (req_params r) w /\
  has (ArgRequest r) url params w =
    has (ArgString (req_method r)) (Some (req_url r)) (req_params r) w /\
  bust (Some (ArgRequest r)) url params w =
    bust (Some (ArgString (req_method r))) (Some (req_url r)) (req_params r) w.
Proof. repeat split. Qed.

(** X17: only the first value of an [HttpParams] key takes part in
    lookups: two parameter containers with the same keys and the same
    first values are interchangeable, as a descriptor and as stored
    parameters, whatever further values their keys have. *)
Theorem later_values_ignored (p1 p2 : HttpParams) :
  keys p1 = keys p2 ->
  (forall key, In key (keys p1) -> get p1 key = get p2 key) ->
  (forall other,
     paramsAreBasicallyEqual areBasicallyEqual (ParamsHttp p1) other =
       paramsAreBasicallyEqual areBasicallyEqual (ParamsHttp p2) other /\
     paramsAreBasicallyEqual areBasicallyEqual other (ParamsHttp p1) =
       paramsAreBasicallyEqual areBasicallyEqual other (ParamsHttp p2)) /\
  (forall (method url : string) (w : World T),
     result (find (ArgString method) (Some url) (ParamsHttp p1)) w =
     result (find (ArgString method) (Some url) (ParamsHttp p2)) w).
Proof.
  intros Hkeys Hget.
  assert (convertHttpParamsToLooseValue (ParamsHttp p1) =
          convertHttpParamsToLooseValue (ParamsHttp p2)) as Hconv.
  { simpl. rewrite <- Hkeys. f_equal. apply map_ext_in.
    intros key Hin. now rewrite (Hget key Hin). }
  assert (forall other,
            paramsAreBasicallyEqual areBasicallyEqual (ParamsHttp p1) other =
            paramsAreBasicallyEqual areBasicallyEqual (ParamsHttp p2) other)
    as Hleft
    by (intros other; unfold paramsAreBasicallyEqual; now rewrite Hconv).
  split.
  - intros other. split; [apply Hleft |].
    unfold paramsAreBasicallyEqual. now rewrite Hconv.
  - intros method url w. rewrite !find_result. simpl.
    induction (cache_of w) as [| x rest IH]; simpl; [reflexivity |].
    unfold callback at 1 3. simpl. rewrite Hleft, IH. reflexivity.
Qed.

End Composition.

(* ===================================================================== *)
(** ** What sequences of calls leave behind *)
(* ===================================================================== *)

Section Histories.
Variable T : Type.
Variable areBasicallyEqual : LooseValue -> LooseValue -> bool.

Local Abbreviation Item := (IHttpCacheItem T).
Local Abbreviation find := (Service.find areBasicallyEqual).
Local Abbreviation run := (perform areBasicallyEqual).
Local Abbreviation run_all := (perform_all areBasicallyEqual).

(** The cache after one call. *)
Lemma perform_cache (op : Op T) (w : World T) :
  cache_of (after (run op) w) =
  match op with
  | OpInsert req (HttpResponseEvent resp) =>
      cache_of w ++ [mkItem (nextObject w) req resp]
  | OpBust None _ _ => []
  | OpBust (Some method) url params =>
      match result (find method url params) w with
      | Some e => without e (cache_of w)
      | None => cache_of w
      end
  | _ => cache_of w
  end.
Proof.
  destruct w as [[s c] o n].
  destruct op as [method url params | method url params | req event
                 | method url params].
  - destruct method as [r | m]; [| destruct url as [u |]];
      cbv [perform]; run_method; reflexivity.
  - destruct method as [r | m]; [| destruct url as [u |]];
      cbv [perform]; run_method; reflexivity.
  - destruct event; cbv [perform]; run_method; simpl; try reflexivity.
    destruct (verbose s); reflexivity.
  - destruct method as [[r | m] |]; [| destruct url as [u |] |];
      cbv [perform]; run_method; simpl; try reflexivity;
      try case_find; simpl; try reflexivity;
      destruct (verbose s); reflexivity.
Qed.

(** The allocator after one call. *)
Lemma perform_next (op : Op T) (w : World T) :
  nextObject (after (run op) w) =
  match op with
  | OpInsert req (HttpResponseEvent resp) => S (nextObject w)
  | _ => nextObject w
  end.
Proof.
  destruct w as [[s c] o n].
  destruct op as [method url params | method url params | req event
                 | method url params].
  - destruct method as [r | m]; [| destruct url as [u |]];
      cbv [perform]; run_method; reflexivity.
  - destruct method as [r | m]; [| destruct url as [u |]];
      cbv [perform]; run_method; reflexivity.
  - destruct event; cbv [perform]; run_method; simpl; try reflexivity.
    destruct (verbose s); reflexivity.
  - destruct method as [[r | m] |]; [| destruct url as [u |] |];
      cbv [perform]; run_method; simpl; try reflexivity;
      try case_find; simpl; try reflexivity;
      destruct (verbose s); reflexivity.
Qed.

Lemma perform_all_cons (op : Op T) (rest : list (Op T)) (w : World T) :
  after (run_all (op :: rest)) w = after (run_all rest) (after (run op) w).
Proof.
  unfold after. simpl. unfold bind.
  destruct (perform areBasicallyEqual op w) as [x w1]. simpl.
  now destruct (perform_all areBasicallyEqual rest w1).
Qed.

(** X9: whatever calls are made, every item of the cache is an item the
    cache started with or the item one of the [insert] calls created, which
    holds the request and the response of that call: entries are never
    altered, and no request is paired with another call's response. *)
Theorem cached_items_origin (ops : list (Op T)) :
  forall (w : World T) (x : Item),
    In x (cache_of (after (run_all ops) w)) ->
    In x (cache_of w) \/ In x (appended ops (nextObject w)).
Proof.
  induction ops as [| op rest IH]; intros w x Hx; [now left |].
  rewrite perform_all_cons in Hx. apply IH in Hx.
  pose proof (perform_cache op w) as Hc.
  pose proof (perform_next op w) as Hn.
  destruct op as [method url params | method url params | req event
                 | method url params]; simpl.
  - rewrite Hc, Hn in Hx. exact Hx.
  - rewrite Hc, Hn in Hx. exact Hx.
  - destruct event; rewrite Hc, Hn in Hx; try exact Hx.
    rewrite in_app_iff in Hx. simpl in *. tauto.
  - destruct method as [method |]; rewrite Hc, Hn in Hx.
    + destruct (result (find method url params) w); [| exact Hx].
      destruct Hx as [Hx | Hx]; [left | now right].
      unfold without in Hx. now apply filter_In in Hx.
    + destruct Hx as [[] | Hx]. now right.
Qed.

(** X10: without [bust] calls the cache only grows at its end: after the
    calls it is the cache before them followed by one item for each
    [insert] of a full response, in the order of the calls. *)
Theorem inserts_append_in_order (ops : list (Op T)) :
  forall w : World T,
    forallb (fun op => negb (is_bust op)) ops = true ->
    cache_of (after (run_all ops) w) =
      cache_of w ++ appended ops (nextObject w).
Proof.
  induction ops as [| op rest IH]; intros w Hno; simpl in Hno.
  - simpl. now rewrite app_nil_r.
  - apply andb_true_iff in Hno. destruct Hno as [Hop Hrest].
    rewrite perform_all_cons, (IH _ Hrest).
    pose proof (perform_cache op w) as Hc.
    pose proof (perform_next op w) as Hn.
    destruct op as [method url params | method url params | req event
                   | method url params]; simpl in *.
    + now rewrite Hc, Hn.
    + now rewrite Hc, Hn.
    + destruct event; rewrite Hc, Hn; try reflexivity.
      now rewrite <- app_assoc.
    + discriminate.
Qed.

(** X11: what a call prints: nothing unless [settings.verbose] is set;
    with it set, [insert] prints one line for a full response and none for
    other events, [bust] without arguments prints one line, [bust] with a
    descriptor prints one line when it finds an item and none when it does
    not, and [find] and [has] never print. *)
Theorem console_after_call (op : Op T) (w : World T) :
  console (after (run op) w) = console w ++ printed areBasicallyEqual op w.
Proof.
  destruct w as [[s c] o n]. unfold printed.
  destruct op as [method url params | method url params | req event
                 | method url params].
  - destruct method as [r | m]; [| destruct url as [u |]];
      cbv [perform]; run_method; simpl;
      destruct (verbose s); now rewrite app_nil_r.
  - destruct method as [r | m]; [| destruct url as [u |]];
      cbv [perform]; run_method; simpl;
      destruct (verbose s); now rewrite app_nil_r.
  - destruct event; cbv [perform]; run_method; simpl;
      destruct (verbose s); simpl; now rewrite ?app_nil_r.
  - destruct method as [[r | m] |]; [| destruct url as [u |] |];
      cbv [perform]; run_method; simpl;
      try case_find; simpl;
      destruct (verbose s); simpl; now rewrite ?app_nil_r.
Qed.

(** X12: the constructor takes the preloaded array as the cache, as it
    is, and prints its initialization line whatever [settings.verbose]
    says; with [verbose] off that line is the only one the service prints,
    whatever calls follow. *)
Theorem constructor_prints_once (s : IHttpCacheSettings)
    (preloadedCache : list Item) (console0 : list (ConsoleLine T))
    (nextObject0 : nat) (ops : list (Op T)) :
  cache_of (constructor s preloadedCache console0 nextObject0)
    = preloadedCache /\
  console (constructor s preloadedCache console0 nextObject0)
    = console0 ++ [LogInitializing preloadedCache] /\
  console
    (after (run_all ops)
       (constructor (with_verbose false s) preloadedCache console0 nextObject0))
    = console0 ++ [LogInitializing preloadedCache].
Proof.
  split; [reflexivity | split; [reflexivity |]].
  now rewrite perform_all_quiet.
Qed.

End Histories.

(* ===================================================================== *)
(** ** Properties of the provider function *)
(* ===================================================================== *)

Module ProviderFacts.
Import Provider.

Section Providers.
Variable Item : Type.
Variable Other : Type.

Local Abbreviation Arg := (Provider.Arg Item Other).
Local Abbreviation provide :=
  (@provideHttpClientWithCache Item Other).

(** The providers array, piece by piece. *)
Lemma providers_layout (cacheSettings : SettingsObject) (args : list Arg)
    (console : list string) :
  fst (provide cacheSettings args console) =
    [HttpClient_providers;
     HTTP_CACHE_SETTINGS_useValue (getCacheSettings cacheSettings);
     HttpCacheService_class]
    ++ List.map (@Spread_feature Item Other) (getFeatures args)
    ++ (if truthy (m_enableInterceptor (getCacheSettings cacheSettings))
        then [HTTP_INTERCEPTORS_useClass] else [])
    ++ (match args with
        | [] => []
        | _ :: _ => [PRELOADED_HTTP_CACHE_useValue (getPreloadedCache args)]
        end).
Proof.
  unfold provideHttpClientWithCache, addInterceptorIfEnabled,
    makeEnvironmentProviders.
  destruct (truthy (m_enableInterceptor (getCacheSettings cacheSettings)));
    destruct args as [| a rest]; simpl; rewrite ?app_nil_r, <- ?app_assoc;
    reflexivity.
Qed.

Lemma enabled_iff (cacheSettings : SettingsObject) :
  truthy (m_enableInterceptor (getCacheSettings cacheSettings)) = true <->
  opt_enableInterceptor cacheSettings = Absent \/
  opt_enableInterceptor cacheSettings = Value true.
Proof.
  unfold getCacheSettings. simpl.
  destruct (opt_enableInterceptor cacheSettings) as [| | [|]]; simpl;
    split; auto; try discriminate; intros [H | H]; discriminate.
Qed.

Lemma verbose_iff (cacheSettings : SettingsObject) :
  truthy (m_verbose (getCacheSettings cacheSettings)) = true <->
  opt_verbose cacheSettings = Value true.
Proof.
  unfold getCacheSettings. simpl.
  destruct (opt_verbose cacheSettings) as [| | [|]]; simpl;
    split; auto; discriminate.
Qed.

(** X13: the providers bind [PRELOADED_HTTP_CACHE] exactly when at least
    one rest argument is passed, and then to the first rest argument when
    it is an array and to the empty array otherwise: an array passed behind
    another argument is not the preloaded cache. *)
Theorem preloaded_binding (cacheSettings : SettingsObject) (args : list Arg)
    (console : list string) (cache : list Item) :
  In (PRELOADED_HTTP_CACHE_useValue cache)
     (fst (provide cacheSettings args console)) <->
  args <> [] /\
  cache = match args with
          | ArrayArg items :: _ => items
          | _ => []
          end.
Proof.
  rewrite providers_layout, !in_app_iff, in_map_iff.
  split.
  - intros [H | [(x & Hx & _) | [H | H]]].
    + simpl in H. intuition discriminate.
    + discriminate.
    + destruct (truthy _); simpl in H; intuition discriminate.
    + destruct args as [| a rest]; simpl in H; [contradiction |].
      destruct H as [H | []]. injection H as <-.
      split; [discriminate | now destruct a].
  - intros [Hne ->]. do 3 right.
    destruct args as [| a rest]; [congruence |].
    left. now destruct a.
Qed.

(** X14: the rest arguments that are not arrays, and only those, are
    spread into the providers array, in the order they were passed; an
    array is never spread, whatever its position. *)
Theorem features_spread (cacheSettings : SettingsObject) (args : list Arg)
    (console : list string) :
  (forall a, In (Spread_feature a) (fst (provide cacheSettings args console))
             <-> In a args /\ isArray a = false) /\
  List.filter
    (fun entry => match entry with Spread_feature _ => true | _ => false end)
    (fst (provide cacheSettings args console))
  = List.map (@Spread_feature Item Other)
      (List.filter (fun a => negb (isArray a)) args).
Proof.
  rewrite providers_layout. split.
  - intros a. rewrite !in_app_iff, in_map_iff. unfold getFeatures.
    split.
    + intros [H | [(x & Hx & Hin) | [H | H]]].
      * simpl in H. intuition discriminate.
      * injection Hx as ->. apply filter_In in Hin.
        now rewrite negb_true_iff in Hin.
      * destruct (truthy _); simpl in H; intuition discriminate.
      * destruct args; simpl in H; intuition discriminate.
    + intros [Hin Hna]. right. left. exists a. split; [reflexivity |].
      apply filter_In. now rewrite Hna.
  - rewrite !filter_app. unfold getFeatures.
    assert (forall l : list Arg,
              List.filter
                (fun entry =>
                   match entry with Spread_feature _ => true | _ => false end)
                (List.map (@Spread_feature Item Other) l)
              = List.map (@Spread_feature Item Other) l) as Hmap
      by (induction l as [| x l IH]; simpl; [| rewrite IH]; reflexivity).
    rewrite Hmap.
    destruct (truthy _); destruct args; simpl; now rewrite ?app_nil_r.
Qed.

(** X15: the interceptor is registered exactly when the caller leaves
    [enableInterceptor] out or sets it to [true], and the function prints
    its one line exactly when, besides, [verbose] is set to [true]; with no
    option set the interceptor is registered and nothing is printed. *)
Theorem interceptor_binding (cacheSettings : SettingsObject) (args : list Arg)
    (console : list string) :
  (In HTTP_INTERCEPTORS_useClass (fst (provide cacheSettings args console))
   <-> opt_enableInterceptor cacheSettings = Absent \/
       opt_enableInterceptor cacheSettings = Value true) /\
  snd (provide cacheSettings args console) =
    (if truthy (m_enableInterceptor (getCacheSettings cacheSettings))
        && truthy (m_verbose (getCacheSettings cacheSettings))
     then console ++ ["HttpCachingInterceptor enabled"]
     else console) /\
  (snd (provide cacheSettings args console) <> console <->
   (opt_enableInterceptor cacheSettings = Absent \/
    opt_enableInterceptor cacheSettings = Value true) /\
   opt_verbose cacheSettings = Value true).
Proof.
  assert (snd (provide cacheSettings args console) =
          (if truthy (m_enableInterceptor (getCacheSettings cacheSettings))
              && truthy (m_verbose (getCacheSettings cacheSettings))
           then console ++ ["HttpCachingInterceptor enabled"]
           else console)) as Hconsole.
  { unfold provideHttpClientWithCache, addInterceptorIfEnabled.
    destruct (truthy (m_enableInterceptor (getCacheSettings cacheSettings)));
      destruct (truthy (m_verbose (getCacheSettings cacheSettings)));
      destruct args; reflexivity. }
  split; [| split; [exact Hconsole |]].
  - rewrite <- enabled_iff, providers_layout, !in_app_iff, in_map_iff.
    destruct (truthy (m_enableInterceptor (getCacheSettings cacheSettings))).
    + split; [reflexivity |]. intros _. do 2 right. left. now left.
    + split; [| discriminate].
      intros [H | [(x & Hx & _) | [[] | H]]].
      * simpl in H. intuition discriminate.
      * discriminate.
      * destruct args; simpl in H; intuition discriminate.
  - rewrite Hconsole, <- enabled_iff, <- verbose_iff.
    destruct (truthy (m_enableInterceptor (getCacheSettings cacheSettings)));
      destruct (truthy (m_verbose (getCacheSettings cacheSettings))); simpl.
    + split; [auto |]. intros _ H.
      apply (f_equal (@List.length string)) in H.
      rewrite length_app in H. simpl in H. lia.
    + split; [congruence | intros [_ H]; discriminate].
    + split; [congruence | intros [H _]; discriminate].
    + split; [congruence | intros [H _]; discriminate].
Qed.

End Providers.

End ProviderFacts.

(* ===================================================================== *)
(** ** Parameter equality under the loose comparer *)
(* ===================================================================== *)

Module FuzzyFacts.
Import COMPARERS ComparerFacts FuzzyParams.








End FuzzyFacts.

(* ===================================================================== *)
(** ** Concrete runs *)
(* ===================================================================== *)

Module Runs.
Import COMPARERS FuzzyParams FuzzyFacts Scenario.

(** The example of the specification: a hit, a miss on other parameters,
    and a miss after the bust. *)
Example hit_miss_bust :
  result (find GET (Some "/users") (active "true")) afterFirst
    = Some E1 /\
  result (find GET (Some "/users") (active "false")) afterFirst
    = None /\
  cache_of (after (bust (Some GET) (Some "/users") (active "true"))
              afterFirst) = [] /\
  result (find GET (Some "/users") (active "true"))
    (after (bust (Some GET) (Some "/users") (active "true"))
       afterFirst) = None.
Proof. vm_compute. repeat split. Qed.

(** Progress events are not cached; two responses for the same logical
    request are both cached. *)
Example progress_then_duplicates :
  after (insert getUsers (HttpDownloadProgressEvent 10%Z None)) fresh = fresh /\
  cache_of afterSecond = [E1; E2] /\
  result (has (ArgRequest getUsers) None ParamsUndefined) afterSecond = true.
Proof. vm_compute. repeat split. Qed.

(** Order of the parameters does not matter to the comparer. *)
Example order_irrelevant :
  fuzzy (ParamsRaw [("a", LString "1"); ("b", LString "2")])
        (ParamsRaw [("b", LString "2"); ("a", LString "1")]) = true.
Proof. reflexivity. Qed.

(** C1, as stated, fails: a full response with status 500 is not a
    successful terminal event, and [insert] caches it. *)
Lemma insert_caches_unsuccessful_response :
  successful_terminal (HttpResponseEvent serverError) = false /\
  cache_of fresh = [] /\
  cache_of (after (insert getUsers (HttpResponseEvent serverError)) fresh)
    = [mkItem 0 getUsers serverError] /\
  cache_of (after (insert getUsers (HttpResponseEvent serverError)) fresh)
    <> cache_of fresh.
Proof. vm_compute. repeat split. discriminate. Qed.




(** [convert_shapes] at work on a parameter with two values: only the
    first one is surfaced. *)
Lemma convert_shapes_witness :
  getAll (mkHttpParams [("tag", ["a"; "b"]); ("page", ["2"])]) "tag"
    = Some ["a"; "b"] /\
  get (mkHttpParams [("tag", ["a"; "b"]); ("page", ["2"])]) "tag"
    = LString "a" /\
  convertHttpParamsToLooseValue
    (ParamsHttp (mkHttpParams [("tag", ["a"; "b"]); ("page", ["2"])]))
    = LPairs [("tag", LString "a"); ("page", LString "2")].
Proof.
  split; [reflexivity | split; [| reflexivity]].
  apply (proj1 (proj2 convert_shapes)) with (others := ["b"]).
  reflexivity.
Defined.



(** [insert_then_found] at work: the first response is found again. *)
Lemma insert_then_found_witness :
  paramsAreBasicallyEqual areBasicallyEqual
    (req_params getUsers) (req_params getUsers) = true /\
  result (has (ArgRequest getUsers) None ParamsUndefined) afterFirst = true.
Proof.
  assert (paramsAreBasicallyEqual areBasicallyEqual
            (req_params getUsers) (req_params getUsers) = true) as Hrefl
    by reflexivity.
  split; [exact Hrefl |].
  exact (proj1 (@insert_then_found string areBasicallyEqual getUsers
                  okResponse None ParamsUndefined fresh Hrefl)).
Defined.

(** [bust_by_identity] at work on the array that holds one object twice. *)
Lemma bust_by_identity_witness :
  result (find GET (Some "/users") (active "true")) preloadedTwice = Some E1 /\
  List.length
    (cache_of (after (bust (Some GET) (Some "/users") (active "true"))
                 preloadedTwice))
  < List.length (cache_of preloadedTwice).
Proof.
  assert (result (find GET (Some "/users") (active "true")) preloadedTwice
          = Some E1) as Hfind by reflexivity.
  split; [exact Hfind |].
  exact (proj2 (proj2 (@bust_by_identity string areBasicallyEqual GET
                         (Some "/users") (active "true") preloadedTwice E1
                         Hfind))).
Defined.

(** [bust_then_next_match] at work: with E1 and E2 cached, the next match
    behind E1 is looked up after the bust. *)
Lemma bust_then_next_match_witness :
  descriptor GET (Some "/users") (active "true") = Some usersDescriptor /\
  distinct_objects (cache_of afterSecond) /\
  result (find GET (Some "/users") (active "true")) afterSecond = Some E1 /\
  exists before later,
    cache_of afterSecond = before ++ E1 :: later /\
    (forall x, In x before -> ~ matches areBasicallyEqual usersDescriptor x) /\
    cache_of (after (bust (Some GET) (Some "/users") (active "true"))
                afterSecond) = before ++ later /\
    first_match areBasicallyEqual usersDescriptor later
      (result (find GET (Some "/users") (active "true"))
         (after (bust (Some GET) (Some "/users") (active "true"))
            afterSecond)).
Proof.
  assert (distinct_objects (cache_of afterSecond)) as Hd.
  { vm_compute. repeat constructor; simpl; intuition discriminate. }
  split; [reflexivity | split; [exact Hd | split; [reflexivity |]]].
  exact (@bust_then_next_match string areBasicallyEqual GET (Some "/users")
           (active "true") usersDescriptor afterSecond E1
           eq_refl Hd eq_refl).
Defined.

(** [bust_keeps_other_hits] at work: busting the users entry leaves the
    orders entry the hit for its own descriptor. *)
Lemma bust_keeps_other_hits_witness :
  result (find (ArgRequest getOrders) None ParamsUndefined) afterThird
    = Some O1 /\
  (forall e,
     result (find GET (Some "/users") (active "true")) afterThird = Some e ->
     same_object O1 e = false) /\
  result (find (ArgRequest getOrders) None ParamsUndefined)
    (after (bust (Some GET) (Some "/users") (active "true")) afterThird)
    = Some O1.
Proof.
  assert (forall e,
            result (find GET (Some "/users") (active "true")) afterThird
              = Some e ->
            same_object O1 e = false) as Hother
    by (intros e He; vm_compute in He; injection He as <-; reflexivity).
  split; [reflexivity | split; [exact Hother |]].
  exact (@bust_keeps_other_hits string areBasicallyEqual GET
           (ArgRequest getOrders) (Some "/users") None (active "true")
           ParamsUndefined afterThird O1 eq_refl Hother).
Defined.

(** [cached_items_origin] at work: E2 in the cache comes from the second
    insert of the calls. *)
Lemma cached_items_origin_witness :
  In E2 (cache_of (after (perform_all areBasicallyEqual calls) fresh)) /\
  (In E2 (cache_of fresh) \/ In E2 (appended calls (nextObject fresh))).
Proof.
  assert (In E2 (cache_of (after (perform_all areBasicallyEqual calls) fresh)))
    as Hin by (vm_compute; tauto).
  split; [exact Hin |].
  exact (@cached_items_origin string areBasicallyEqual calls fresh E2 Hin).
Defined.

(** [inserts_append_in_order] at work on calls without a bust. *)
Lemma inserts_append_in_order_witness :
  forallb (fun op => negb (is_bust op)) calls = true /\
  cache_of (after (perform_all areBasicallyEqual calls) fresh) = [E1; E2].
Proof.
  split; [reflexivity |].
  exact (@inserts_append_in_order string areBasicallyEqual calls fresh
           eq_refl).
Defined.

(** [later_values_ignored] at work: [?tag=a&tag=b] and [?tag=a]. *)
Lemma later_values_ignored_witness :
  keys (mkHttpParams [("tag", ["a"; "b"])])
    = keys (mkHttpParams [("tag", ["a"])]) /\
  paramsAreBasicallyEqual areBasicallyEqual
    (ParamsHttp (mkHttpParams [("tag", ["a"; "b"])]))
    (ParamsHttp (mkHttpParams [("tag", ["a"])])) = true.
Proof.
  split; [reflexivity |].
  assert (forall key,
            In key (keys (mkHttpParams [("tag", ["a"; "b"])])) ->
            get (mkHttpParams [("tag", ["a"; "b"])]) key =
            get (mkHttpParams [("tag", ["a"])]) key) as Hget
    by (intros key [<- | []]; reflexivity).
  rewrite (proj1 (proj1 (@later_values_ignored string areBasicallyEqual
                           (mkHttpParams [("tag", ["a"; "b"])])
                           (mkHttpParams [("tag", ["a"])]) eq_refl Hget)
                    (ParamsHttp (mkHttpParams [("tag", ["a"])])))).
  reflexivity.
Defined.

(** An array passed behind another argument is dropped: it is neither the
    preloaded cache nor a feature. *)
Example misplaced_preload_dropped :
  fst (Provider.provideHttpClientWithCache
         (Provider.mkSettingsObject Provider.Absent Provider.Absent
            Provider.Absent)
         misplacedPreload [])
  = [ Provider.HttpClient_providers;
      Provider.HTTP_CACHE_SETTINGS_useValue
        (Provider.mkMerged (Some true) (Some false) (Some false));
      Provider.HttpCacheService_class;
      Provider.Spread_feature (Provider.OtherArg tt);
      Provider.HTTP_INTERCEPTORS_useClass;
      Provider.PRELOADED_HTTP_CACHE_useValue [] ].
Proof. reflexivity. Qed.

(** C6, as stated, fails: with no request object and no URL, a first
    argument that is [undefined] makes [find] and [has] throw, where the
    claim has them return [null] and [false]. *)
Lemma lookup_of_undefined_throws :
  find_js areBasicallyEqual RawUndefined None ParamsUndefined fresh
    = (Thrown TypeError, fresh) /\
  has_js areBasicallyEqual RawUndefined None ParamsUndefined fresh
    = (Thrown TypeError, fresh) /\
  find_js areBasicallyEqual RawUndefined None ParamsUndefined fresh
    <> (Returned None, fresh) /\
  has_js areBasicallyEqual RawUndefined None ParamsUndefined fresh
    <> (Returned false, fresh).
Proof. repeat split; discriminate. Qed.

End Runs.
